(** * OpenTuner plays Super Mario Bros.: the movie codec, the representations,
      the fitness functions and the evaluation harness of
      [examples/mario/mario.py], embedded in Rocq.

    Python integers are [Z], Python sets of frame indices are [gset Z],
    Python strings are [string], the configuration dictionary is a
    [gmap string value], Python floats are IEEE binary64 values
    ([spec_float] at precision 53), and a Python exception is the [Raise]
    branch of [result].  The file is Python 3: where the harness hands
    text to a binary file and reads bytes from a pipe, [str] and [bytes]
    are kept apart by the constructors of [object]. *)

From Stdlib Require Import ZArith String Ascii List Lia.
From Stdlib Require Import Floats.SpecFloat.
From stdpp Require Import base numbers option list gmap sets strings pretty.

Open Scope Z_scope.
Open Scope string_scope.
Open Scope list_scope.

(** ** Exceptions *)

Inductive exn : Type :=
  | KeyError (key : string)
  | TypeError
  | ValueError
  | ZeroDivisionError
  | OverflowError
  | OSError.

Inductive result (A : Type) : Type :=
  | Return (a : A)
  | Raise (e : exn).
Arguments Return {A} a.
Arguments Raise {A} e.

Global Instance result_ret : MRet result := fun _ a => Return a.
Global Instance result_bind : MBind result := fun _ _ k m =>
  match m with
  | Return a => k a
  | Raise e => Raise e
  end.

(** [for x in xs: body], where the body may raise. *)
Fixpoint for_each {A S : Type} (xs : list A) (body : S -> A -> result S) (s : S)
  : result S :=
  match xs with
  | [] => Return s
  | x :: xs' => s' ← body s x; for_each xs' body s'
  end.

(** [range(lo, hi)] *)
Definition range (lo hi : Z) : list Z := seqZ lo (hi - lo).

(** ** Functions for building FCEUX movie files (.fm2 files) *)

Definition nl : string := String "010"%char EmptyString.

(** [sep.join(rows)] *)
Definition join (sep : string) (rows : list string) : string :=
  String.concat sep rows.

(** formats one frame of input with the given button presses *)
Definition fm2_line (up down left right a b start select reset : bool) : string :=
  (if reset then "|1|" else "|0|") +:+
  (if right then "R" else ".") +:+
  (if left then "L" else ".") +:+
  (if down then "D" else ".") +:+
  (if up then "U" else ".") +:+
  (if start then "T" else ".") +:+
  (if select then "D" else ".") +:+
  (if b then "B" else ".") +:+
  (if a then "A" else ".") +:+
  "|........||".

(** [max(iterable)], which raises [ValueError] on an empty iterable. *)
Definition py_max (iterable : gset Z) : result Z :=
  match elements iterable with
  | [] => Raise ValueError
  | x :: xs => Return (foldl Z.max x xs)
  end.

Definition maxd (iterable : gset Z) (default : Z) : Z :=
  match py_max iterable with
  | Return m => m
  | Raise _ => default
  end.

(** [i in s] *)
Definition mem (i : Z) (s : gset Z) : bool := bool_decide (i ∈ s).

(** The value [fm2_lines] gives [maxFrame] when the caller passes none. *)
Definition computed_maxFrame (up down left right a b start select reset : gset Z)
  : Z :=
  foldl Z.max (maxd up 0)
    [maxd down 0; maxd left 0; maxd right 0; maxd a 0; maxd b 0;
     maxd start 0; maxd select 0; maxd reset 0] + 1.

(** formats many frames using the given button-press sets *)
Definition fm2_lines (up down left right a b start select reset : gset Z)
    (minFrame maxFrame : option Z) : list string :=
  let minFrame := match minFrame with None => 0 | Some m => m end in
  let maxFrame :=
    match maxFrame with
    | None => computed_maxFrame up down left right a b start select reset
    | Some m => m
    end in
  (fun i => fm2_line (mem i up) (mem i down) (mem i left) (mem i right)
              (mem i a) (mem i b) (mem i start) (mem i select) (mem i reset))
    <$> range minFrame maxFrame.

Definition fm2_smb_header : list string :=
  ["version 3";
   "emuVersion 9828";
   "romFilename smb.nes";
   "romChecksum base64:jjYwGG411HcjG/j9UOVM3Q==";
   "guid 51473540-E9D7-11E3-ADFC-46CE3219C4E0";
   "fourscore 0";
   "port0 1";
   "port1 1";
   "port2 0"].

(** [set([x+196 for x in s])] *)
Definition shift196 (s : gset Z) : gset Z := set_map (fun x => x + 196) s.

(** The list that [fm2_smb] hands to ["\n".join]: the header rows, when
    requested, followed by the frame rows. *)
Definition fm2_smb_rows (left right down b a : gset Z) (header padding : bool)
    (minFrame maxFrame : option Z) : list string :=
  let reset : gset Z := ∅ in
  let start : gset Z := ∅ in
  let left := if padding then shift196 left else left in
  let right := if padding then shift196 right else right in
  let down := if padding then shift196 down else down in
  let b := if padding then shift196 b else b in
  let a := if padding then shift196 a else a in
  let reset := if padding then reset ∪ {[0]} else reset in
  let start := if padding then start ∪ {[33]} else start in
  let lines := fm2_lines ∅ down left right a b start ∅ reset minFrame maxFrame in
  if header then fm2_smb_header ++ lines else lines.

Definition fm2_smb (left right down b a : gset Z) (header padding : bool)
    (minFrame maxFrame : option Z) : string :=
  join nl (fm2_smb_rows left right down b a header padding minFrame maxFrame).

(** ** Configurations

    A configuration is the dictionary the search engine hands to
    [interpret]: parameter name to value.  Values are dynamically typed, as
    in Python. *)

Inductive value : Type :=
  | VBool (b : bool)
  | VInt (z : Z)
  | VStr (s : string).

Global Instance value_eq_dec : EqDecision value.
Proof. solve_decision. Defined.

Abbreviation config := (gmap string value).

(** [cfg[key]] *)
Definition getitem (cfg : config) (key : string) : result value :=
  match cfg !! key with
  | Some v => Return v
  | None => Raise (KeyError key)
  end.

(** Truth value of [v] in an [if]. *)
Definition truthy (v : value) : bool :=
  match v with
  | VBool b => b
  | VInt z => negb (z =? 0)%Z
  | VStr s => negb (String.eqb s "")
  end.

(** [v] used as an integer operand ([bool] is a subclass of [int]). *)
Definition as_int (v : value) : result Z :=
  match v with
  | VBool b => Return (Z.b2z b)
  | VInt z => Return z
  | VStr _ => Raise TypeError
  end.

(** [sub in s] on strings. *)
Fixpoint substring_of (sub s : string) : bool :=
  String.prefix sub s ||
  match s with
  | EmptyString => false
  | String _ s' => substring_of sub s'
  end.

(** [letter in v], which needs [v] to be a string. *)
Definition contains (letter : string) (v : value) : result bool :=
  match v with
  | VStr s => Return (substring_of letter s)
  | _ => Raise TypeError
  end.

(** [s.update(range(lo, hi))] *)
Definition update_range (s : gset Z) (lo hi : Z) : gset Z :=
  s ∪ list_to_set (range lo hi).

(** The parameters a [ConfigurationManipulator] collects. *)
Inductive parameter : Type :=
  | BooleanParameter (name : string)
  | IntegerParameter (name : string) (lo hi : Z)
  | EnumParameter (name : string) (options : list value).

(** Modelled from the spec: the domain of a parameter, which the search
    engine's manipulator classes define outside this file ("boolean; bounded
    integer [lo,hi]; enumerated symbol set"). *)
Definition in_domain (p : parameter) (cfg : config) : Prop :=
  match p with
  | BooleanParameter name => exists b, cfg !! name = Some (VBool b)
  | IntegerParameter name lo hi => exists z, cfg !! name = Some (VInt z) /\ lo <= z <= hi
  | EnumParameter name options => exists v, cfg !! name = Some v /\ v ∈ options
  end.

(** Modelled from the spec: a configuration the search engine may hand to
    [interpret] gives every declared parameter a value of its domain. *)
Definition conforms (m : list parameter) (cfg : config) : Prop :=
  Forall (fun p => in_domain p cfg) m.

(** The five button-press sets [(left, right, down, running, jumping)]. *)
Abbreviation presses := (gset Z * gset Z * gset Z * gset Z * gset Z)%type.

(** Interface for pluggable tuning representations. *)
Record Representation : Type := {
  manipulator : list parameter;
  interpret : config -> result presses
}.

(** Uses a parameter per (button, frame) pair. *)
Module NaiveRepresentation.

Definition manipulator : list parameter :=
  i ← range 0 12000;
  [BooleanParameter ("L" +:+ pretty i);
   BooleanParameter ("R" +:+ pretty i);
   BooleanParameter ("D" +:+ pretty i);
   BooleanParameter ("B" +:+ pretty i);
   BooleanParameter ("A" +:+ pretty i)].

Definition body (cfg : config) (st : presses) (i : Z) : result presses :=
  let '(left', right', down', running', jumping') := st in
  l ← getitem cfg ("L" +:+ pretty i);
  let left' := if truthy l then left' ∪ {[i]} else left' in
  r ← getitem cfg ("R" +:+ pretty i);
  let right' := if truthy r then right' ∪ {[i]} else right' in
  d ← getitem cfg ("D" +:+ pretty i);
  let down' := if truthy d then down' ∪ {[i]} else down' in
  b ← getitem cfg ("B" +:+ pretty i);
  let running' := if truthy b then running' ∪ {[i]} else running' in
  a ← getitem cfg ("A" +:+ pretty i);
  let jumping' := if truthy a then jumping' ∪ {[i]} else jumping' in
  Return (left', right', down', running', jumping').

Definition interpret (cfg : config) : result presses :=
  for_each (range 0 12000) (body cfg) (∅, ∅, ∅, ∅, ∅).

End NaiveRepresentation.

Module DurationRepresentation.

Definition moves : list value :=
  [VStr "R"; VStr "L"; VStr "RB"; VStr "LB"; VStr "N"; VStr "LR";
   VStr "LRB"; VStr "R2"; VStr "RB2"; VStr "R3"; VStr "RB3"].

Definition manipulator : list parameter :=
  (i ← range 0 1000;
   [EnumParameter ("move" +:+ pretty i) moves;
    IntegerParameter ("move_duration" +:+ pretty i) 1 60]) ++
  (i ← range 0 1000;
   [IntegerParameter ("jump_frame" +:+ pretty i) 0 24000;
    IntegerParameter ("jump_duration" +:+ pretty i) 1 32]).

(** One turn of the first loop; the state is
    [(left, right, running, start)]. *)
Definition move_body (cfg : config) (st : gset Z * gset Z * gset Z * Z) (i : Z)
  : result (gset Z * gset Z * gset Z * Z) :=
  let '(left', right', running', start) := st in
  move ← getitem cfg ("move" +:+ pretty i);
  move_duration ← getitem cfg ("move_duration" +:+ pretty i);
  has_r ← contains "R" move;
  has_l ← contains "L" move;
  has_b ← contains "B" move;
  d ← as_int move_duration;
  let right' := if (has_r : bool) then update_range right' start (start + d) else right' in
  let left' := if (has_l : bool) then update_range left' start (start + d) else left' in
  let running' := if (has_b : bool) then update_range running' start (start + d) else running' in
  Return (left', right', running', start + d).

(** One turn of the second loop; the state is [jumping]. *)
Definition jump_body (cfg : config) (jumping : gset Z) (i : Z) : result (gset Z) :=
  jump_frame ← getitem cfg ("jump_frame" +:+ pretty i);
  jump_duration ← getitem cfg ("jump_duration" +:+ pretty i);
  f ← as_int jump_frame;
  d ← as_int jump_duration;
  Return (update_range jumping f (f + d)).

Definition interpret (cfg : config) : result presses :=
  let down : gset Z := ∅ in
  st ← for_each (range 0 1000) (move_body cfg) (∅, ∅, ∅, 0);
  let '(left', right', running', _) := st in
  jumping ← for_each (range 0 1000) (jump_body cfg) ∅;
  Return (left', right', down, running', jumping).

End DurationRepresentation.

Module AlphabetRepresentation.

Definition manipulator : list parameter :=
  i ← range 0 (400 * 60);
  [EnumParameter (pretty i) (VInt <$> range 0 16)].

Definition body (cfg : config) (st : gset Z * gset Z * gset Z * gset Z) (i : Z)
  : result (gset Z * gset Z * gset Z * gset Z) :=
  let '(left', right', running', jumping') := st in
  v ← getitem cfg (pretty i);
  bits ← as_int v;
  let left' := if negb (Z.land bits 1 =? 0)%Z then left' ∪ {[i]} else left' in
  let right' := if negb (Z.land bits 2 =? 0)%Z then right' ∪ {[i]} else right' in
  let running' := if negb (Z.land bits 4 =? 0)%Z then running' ∪ {[i]} else running' in
  let jumping' := if negb (Z.land bits 8 =? 0)%Z then jumping' ∪ {[i]} else jumping' in
  Return (left', right', running', jumping').

Definition interpret (cfg : config) : result presses :=
  let down : gset Z := ∅ in
  st ← for_each (range 0 (400 * 60)) (body cfg) (∅, ∅, ∅, ∅);
  let '(left', right', running', jumping') := st in
  Return (left', right', down, running', jumping').

End AlphabetRepresentation.

Definition naive_representation : Representation :=
  {| manipulator := NaiveRepresentation.manipulator;
     interpret := NaiveRepresentation.interpret |}.
Definition duration_representation : Representation :=
  {| manipulator := DurationRepresentation.manipulator;
     interpret := DurationRepresentation.interpret |}.
Definition alphabet_representation : Representation :=
  {| manipulator := AlphabetRepresentation.manipulator;
     interpret := AlphabetRepresentation.interpret |}.

(** ** Floats

    A Python [float] is an IEEE 754 binary64 value; the operations round to
    nearest, ties to even. *)

Abbreviation float := spec_float.

Definition prec : Z := 53.
Definition emax : Z := 1024.

(** [float(z)] and the implicit conversion of an [int] operand; an integer
    too large for a double raises [OverflowError]. *)
Definition py_float (z : Z) : result float :=
  match binary_normalize prec emax z 0 false with
  | S754_infinity _ => Raise OverflowError
  | f => Return f
  end.

(** [float('inf')] *)
Definition inf : float := S754_infinity false.

Definition fneg (x : float) : float := SFopp x.
Definition fmul (x y : float) : float := SFmul prec emax x y.

(** [x / y], which raises [ZeroDivisionError] when [y] is zero. *)
Definition fdiv (x y : float) : result float :=
  match y with
  | S754_zero _ => Raise ZeroDivisionError
  | _ => Return (SFdiv prec emax x y)
  end.

(** The float [x] is finite and its value is the integer [z]. *)
Definition denotes (x : float) (z : Z) : Prop :=
  match x with
  | S754_zero _ => z = 0
  | S754_finite s m e =>
      (if s then Z.neg m else Z.pos m) * 2 ^ Z.max e 0 = z * 2 ^ Z.max (- e) 0
  | _ => False
  end.

(** [r] returns, without raising, a float whose value is the integer [z]. *)
Definition returns_int (r : result float) (z : Z) : Prop :=
  exists f, r = Return f /\ denotes f z.

(** ** Fitness functions *)

(** Interface for pluggable fitness functions: the fitness (float, lower is
    better) of [(won, x_pos, elapsed_frames)]. *)
Abbreviation FitnessFunction := (bool -> Z -> Z -> result float).

Definition Progress (won : bool) (x_pos elapsed_frames : Z) : result float :=
  x ← py_float x_pos;
  Return (fneg x).

(** x_pos plus 1 for each frame remaining on the timer on a win. *)
Definition ProgressPlusTimeRemaining (won : bool) (x_pos elapsed_frames : Z)
  : result float :=
  if won
  then x ← py_float (x_pos + 400 * 60 - elapsed_frames); Return (fneg x)
  else x ← py_float x_pos; Return (fneg x).

Definition ProgressTimesAverageSpeed (won : bool) (x_pos elapsed_frames : Z)
  : result float :=
  x ← py_float x_pos;
  frames ← py_float elapsed_frames;
  speed ← fdiv x frames;
  neg_x ← py_float (- x_pos);
  Return (fmul neg_x speed).

(** ** Running the emulator *)

(** Python 3 keeps text ([str]) and raw bytes ([bytes]) apart.  These are the
    objects the harness writes, reads and prints. *)
Inductive object : Type :=
  | Str (s : string)
  | Bytes (b : string)
  | Int (z : Z).

(** [f.write(data)] on the temporary file: [NamedTemporaryFile] opens it in
    binary mode ([w+b]), where only bytes can be written.  The bytes
    written are returned. *)
Definition write (data : object) : result string :=
  match data with
  | Bytes b => Return b
  | Str _ => Raise TypeError
  | Int _ => Raise TypeError
  end.

(** [re.search(r"^(won|died) (\d+) (\d+)$", stdout, re.MULTILINE)] on the
    [bytes] read from the child's pipe: the pattern is a [str], and [re]
    refuses a [str] pattern on a bytes-like object whatever the bytes are.
    A match would hold the three groups. *)
Definition re_search (stdout : string) : result (option (string * string * string)) :=
  Raise TypeError.

Definition is_digit (c : ascii) : bool :=
  (48 <=? nat_of_ascii c)%nat && (nat_of_ascii c <=? 57)%nat.

(** [int(b)] for the bytes of a group [(\d+)]: a run of ASCII digits, read
    in decimal; CPython reads at most 4300 digits and raises [ValueError]
    beyond. *)
Definition py_int (b : string) : result Z :=
  if forallb is_digit (list_ascii_of_string b)
     && negb (String.eqb b "") && (String.length b <=? 4300)%nat
  then Return (fold_left (fun acc c => 10 * acc + (Z.of_nat (nat_of_ascii c) - 48))
                 (list_ascii_of_string b) 0)
  else Raise ValueError.

(** [needle in haystack] for a [str] needle: the haystack must be a [str]
    too. *)
Definition str_in (needle : string) (haystack : object) : result bool :=
  match haystack with
  | Str h => Return (substring_of needle h)
  | Bytes _ => Raise TypeError
  | Int _ => Raise TypeError
  end.

(** What the operating system answers: the name of the temporary movie
    file, and, for a command line and the bytes in that file, either the
    [bytes] captured from the child's stdout and stderr or the exception of
    a launch that fails. *)
Record Subprocess : Type := {
  tempname : string;
  communicate : list string -> string -> result (string * string)
}.

Record Args : Type := {
  headful : bool;
  xvfb_delay : Z;
  fceux_path : string;
  representation : Representation;
  fitness_function : FitnessFunction
}.

(** The arguments of each call of [print] so far, and the value returned or
    exception raised. *)
Abbreviation io A := (list (list object) * result A)%type.

(** The command line [run_movie] builds. *)
Definition command (os : Subprocess) (args : Args) : list string :=
  let cmd : list string := [] in
  let cmd :=
    if negb (headful args)
    then cmd ++ ["xvfb-run"; "-a"; "-w"; pretty (xvfb_delay args)]
    else cmd in
  cmd ++ [fceux_path args; "--playmov"; tempname os; "--loadlua";
          "fceux-hook.lua"; "--nogui"; "--volume"; "0"; "--no-config"; "1";
          "smb.nes"].

Definition run_movie (os : Subprocess) (fm2 : object) (args : Args)
  : io (string * Z * Z) :=
  match write fm2 with
  | Raise e => ([], Raise e)
  | Return written =>
      match communicate os (command os args) written with
      | Raise e => ([], Raise e)
      | Return (stdout, stderr) =>
          match re_search stdout with
          | Raise e => ([], Raise e)
          | Return None => ([[Bytes stderr]; [Bytes stdout]], Raise ValueError)
          | Return (Some (wl, g2, g3)) =>
              match py_int g2 with
              | Raise e => ([], Raise e)
              | Return x_pos =>
                  match py_int g3 with
                  | Raise e => ([], Raise e)
                  | Return framecount => ([], Return (wl, x_pos, framecount))
                  end
              end
          end
      end
  end.

(** ** The measurement interface *)

Record Result : Type := {
  state : string;
  time : float
}.

Module SMBMI.

Definition manipulator (args : Args) : list parameter :=
  manipulator (representation args).

Definition compile (os : Subprocess) (args : Args) (cfg : config) (id : Z)
  : io Result :=
  match interpret (representation args) cfg with
  | Raise e => ([], Raise e)
  | Return (left', right', down, running, jumping) =>
      let fm2 := fm2_smb left' right' down running jumping true true None None in
      match run_movie os (Str fm2) args with
      | (out, Raise ValueError) =>
          (out, Return {| state := "ERROR"; time := inf |})
      | (out, Raise e) => (out, Raise e)
      | (out, Return (wl, x_pos, framecount)) =>
          let out := (out ++ [[Bytes wl; Int x_pos; Int framecount]])%list in
          match str_in "won" (Bytes wl) with
          | Raise e => (out, Raise e)
          | Return won =>
              match fitness_function args won x_pos framecount with
              | Raise e => (out, Raise e)
              | Return score => (out, Return {| state := "OK"; time := score |})
              end
          end
      end
  end.

Definition run_precompiled (compile_result : Result) : Result := compile_result.

End SMBMI.

(** ** The lines of a text *)

(** The text split at its newlines. *)
Fixpoint split_lines (s : string) : list string :=
  match s with
  | EmptyString => [EmptyString]
  | String c s' =>
      if Ascii.eqb c "010"%char then EmptyString :: split_lines s'
      else match split_lines s' with
           | [] => [String c EmptyString]
           | l :: ls => String c l :: ls
           end
  end.

(** The entries of a duration-run configuration: the symbol and duration of
    move [i], the frame and duration of jump [i], and the frame at which
    move [i] begins (the sum of the durations before it). *)
Definition move_of (cfg : config) (i : Z) : string :=
  match cfg !! ("move" +:+ pretty i) with Some (VStr s) => s | _ => "" end.

Definition move_duration_of (cfg : config) (i : Z) : Z :=
  match cfg !! ("move_duration" +:+ pretty i) with Some (VInt d) => d | _ => 0 end.

Definition jump_frame_of (cfg : config) (i : Z) : Z :=
  match cfg !! ("jump_frame" +:+ pretty i) with Some (VInt f) => f | _ => 0 end.

Definition jump_duration_of (cfg : config) (i : Z) : Z :=
  match cfg !! ("jump_duration" +:+ pretty i) with Some (VInt d) => d | _ => 0 end.

Fixpoint cursor_upto (cfg : config) (n : nat) : Z :=
  match n with
  | O => 0
  | S k => cursor_upto cfg k + move_duration_of cfg (Z.of_nat k)
  end.

Definition cursor (cfg : config) (i : Z) : Z := cursor_upto cfg (Z.to_nat i).

(** Bit [j] of the value the configuration gives frame [k]. *)
Definition alphabet_bit (cfg : config) (j k : Z) : bool :=
  match cfg !! pretty k with
  | Some (VInt bits) => Z.testbit bits j
  | _ => false
  end.

(** No character of [s] is a newline. *)
Definition no_newline (s : string) : Prop :=
  forall c, In c (list_ascii_of_string s) -> c <> "010"%char.

(** ** Example configurations *)

(** The entries [prefix0, prefix1, ...] below [n], entry [i] with value
    [val i]. *)
Definition family (prefix : string) (val : Z -> value) (n : Z) : config :=
  list_to_map ((fun i => (prefix +:+ pretty i, val i)) <$> range 0 n).

(** A bitmask-alphabet configuration: left and right at every frame. *)
Definition alphabet_example : config :=
  family "" (fun _ => VInt 3) (400 * 60).

(** A duration-run configuration: right for 5 frames, left for 3, then
    neither; every jump is one frame at frame 24000. *)
Definition duration_example : config :=
  family "move"
    (fun i => VStr (if (i =? 0)%Z then "R" else if (i =? 1)%Z then "L" else "N"))
    1000 ∪
  family "move_duration"
    (fun i => VInt (if (i =? 0)%Z then 5 else if (i =? 1)%Z then 3 else 1))
    1000 ∪
  family "jump_frame" (fun _ => VInt 24000) 1000 ∪
  family "jump_duration" (fun _ => VInt 1) 1000.

(** ** An example run *)

(** A child process that crashes: no line of its stdout has the form
    [won <int> <int>] or [died <int> <int>]. *)
Definition crashing : Subprocess :=
  {| tempname := "/tmp/tmpq3x1.fm2";
     communicate := fun _ _ =>
       Return ("fceux: cannot open display" +:+ nl +:+ "died 12" +:+ nl,
               "Segmentation fault") |}.

(** The truth value the configuration gives the key [letter ++ str(k)]
    ([false] when the key is absent). *)
Definition naive_flag (cfg : config) (letter : string) (k : Z) : bool :=
  match cfg !! (letter +:+ pretty k) with
  | Some v => truthy v
  | None => false
  end.

(** A naive configuration: right on every frame, jump on every other frame. *)
Definition naive_example : config :=
  family "L" (fun _ => VBool false) 12000 ∪
  family "R" (fun _ => VBool true) 12000 ∪
  family "D" (fun _ => VBool false) 12000 ∪
  family "B" (fun _ => VBool false) 12000 ∪
  family "A" (fun i => VBool (Z.even i)) 12000.

(** * Proofs *)

(** ** The movie codec *)

Section Fm2Line.
Variables up down left right a b start select reset : bool.

Local Abbreviation line := (fm2_line up down left right a b start select reset).

Lemma fm2_line_length : String.length line = 22%nat.
Proof.
  destruct up, down, left, right, a, b, start, select, reset; reflexivity.
Qed.

Lemma fm2_line_reset :
  String.get 1 line = Some (if reset then "1" else "0")%char.
Proof.
  destruct up, down, left, right, a, b, start, select, reset; reflexivity.
Qed.

Lemma fm2_line_buttons :
  String.get 3 line = Some (if right then "R" else ".")%char /\
  String.get 4 line = Some (if left then "L" else ".")%char /\
  String.get 5 line = Some (if down then "D" else ".")%char /\
  String.get 6 line = Some (if up then "U" else ".")%char /\
  String.get 7 line = Some (if start then "T" else ".")%char /\
  String.get 8 line = Some (if select then "D" else ".")%char /\
  String.get 9 line = Some (if b then "B" else ".")%char /\
  String.get 10 line = Some (if a then "A" else ".")%char.
Proof.
  destruct up, down, left, right, a, b, start, select, reset;
    repeat split; reflexivity.
Qed.

End Fm2Line.

Lemma mem_true (i : Z) (s : gset Z) : mem i s = true <-> i ∈ s.
Proof. unfold mem. by rewrite bool_decide_eq_true. Qed.

Lemma mem_empty (i : Z) : mem i ∅ = false.
Proof. unfold mem. apply bool_decide_eq_false. set_solver. Qed.

Lemma mem_singleton (i j : Z) : mem i (∅ ∪ {[j]}) = bool_decide (i = j).
Proof.
  unfold mem. apply bool_decide_ext.
  rewrite elem_of_union, elem_of_singleton. split; [|by right].
  intros [H|H]; [by apply not_elem_of_empty in H | done].
Qed.

Lemma mem_shift196 (i : Z) (s : gset Z) : mem i (shift196 s) = mem (i - 196) s.
Proof.
  unfold mem, shift196. apply bool_decide_ext.
  rewrite elem_of_map. split.
  - intros (x & -> & Hx). by replace (x + 196 - 196) with x by lia.
  - intros Hi. exists (i - 196). split; [lia | done].
Qed.

(** [max(iterable)] is an upper bound of the set and one of its members. *)
Lemma foldl_max_spec (xs : list Z) (x : Z) :
  (foldl Z.max x xs = x \/ foldl Z.max x xs ∈ xs) /\
  x <= foldl Z.max x xs /\
  (forall y, y ∈ xs -> y <= foldl Z.max x xs).
Proof.
  revert x. induction xs as [|y xs IH]; intros x; simpl.
  - split; [by left|]. split; [lia|]. intros y Hy. by apply elem_of_nil in Hy.
  - destruct (IH (Z.max x y)) as (Hm & Hle & Hub).
    split; [|split].
    + destruct Hm as [Hm|Hm].
      * rewrite Hm. destruct (Z.max_spec x y) as [[_ E]|[_ E]]; rewrite E.
        -- right. apply elem_of_cons. by left.
        -- by left.
      * right. apply elem_of_cons. by right.
    + lia.
    + intros z Hz. apply elem_of_cons in Hz as [->|Hz]; [lia | by apply Hub].
Qed.

Lemma py_max_empty : py_max ∅ = Raise ValueError.
Proof. unfold py_max. by rewrite elements_empty. Qed.

Lemma py_max_nonempty (s : gset Z) :
  s <> ∅ -> exists m, py_max s = Return m /\ m ∈ s /\ forall y, y ∈ s -> y <= m.
Proof.
  intros Hne. unfold py_max.
  destruct (elements s) as [|x xs] eqn:E.
  - apply elements_empty_inv in E. by apply leibniz_equiv in E.
  - exists (foldl Z.max x xs).
    destruct (foldl_max_spec xs x) as (Hm & Hle & Hub).
    split; [done|]. split.
    + apply elem_of_elements. rewrite E. apply elem_of_cons.
      destruct Hm as [->|Hm]; [by left | by right].
    + intros y Hy. apply elem_of_elements in Hy. rewrite E in Hy.
      apply elem_of_cons in Hy as [->|Hy]; [done | by apply Hub].
Qed.

Lemma maxd_empty (d : Z) : maxd ∅ d = d.
Proof. unfold maxd. by rewrite py_max_empty. Qed.

Lemma maxd_nonempty (s : gset Z) (d : Z) :
  s <> ∅ -> maxd s d ∈ s /\ forall y, y ∈ s -> y <= maxd s d.
Proof.
  intros Hne. unfold maxd.
  destruct (py_max_nonempty s Hne) as (m & -> & Hm & Hub). done.
Qed.

(** With default [0], [maxd] is [0] or a member, and bounds the members. *)
Lemma maxd_0_spec (s : gset Z) :
  ((s = ∅ /\ maxd s 0 = 0) \/ maxd s 0 ∈ s) /\ forall y, y ∈ s -> y <= maxd s 0.
Proof.
  destruct (decide (s = ∅)) as [->|Hne].
  - rewrite maxd_empty. split; [by left | set_solver].
  - destruct (maxd_nonempty s 0 Hne). split; [by right | done].
Qed.

Lemma range_length (lo hi : Z) : length (range lo hi) = Z.to_nat (hi - lo).
Proof. unfold range. apply length_seqZ. Qed.

Lemma range_lookup (lo hi i : Z) :
  lo <= i < hi -> range lo hi !! Z.to_nat (i - lo) = Some i.
Proof.
  intros Hi. unfold range. apply lookup_seqZ. lia.
Qed.

Lemma elem_of_range (lo hi i : Z) : i ∈ range lo hi <-> lo <= i < hi.
Proof. unfold range. rewrite elem_of_seqZ. lia. Qed.

Lemma fm2_lines_length up down left right a b start select reset lo hi :
  length (fm2_lines up down left right a b start select reset (Some lo) (Some hi))
  = Z.to_nat (hi - lo).
Proof. unfold fm2_lines. by rewrite length_fmap, range_length. Qed.

Lemma fm2_lines_lookup up down left right a b start select reset lo hi i :
  lo <= i < hi ->
  fm2_lines up down left right a b start select reset (Some lo) (Some hi)
    !! Z.to_nat (i - lo)
  = Some (fm2_line (mem i up) (mem i down) (mem i left) (mem i right)
            (mem i a) (mem i b) (mem i start) (mem i select) (mem i reset)).
Proof.
  intros Hi. unfold fm2_lines.
  by rewrite list_lookup_fmap, range_lookup.
Qed.

(** *** The text and its rows *)

Lemma split_lines_row (r : string) : no_newline r -> split_lines r = [r].
Proof.
  induction r as [|c r IH]; intros Hr; simpl; [done|].
  destruct (Ascii.eqb_spec c "010"%char) as [->|_].
  - exfalso. apply (Hr "010"%char); [by left | done].
  - rewrite IH; [done|]. intros d Hd. apply Hr. by right.
Qed.

Lemma split_lines_row_nl (r s : string) :
  no_newline r -> split_lines (r +:+ nl +:+ s) = r :: split_lines s.
Proof.
  induction r as [|c r IH]; intros Hr; [done|].
  change (String c r +:+ nl +:+ s) with (String c (r +:+ nl +:+ s)).
  cbn [split_lines].
  destruct (Ascii.eqb_spec c "010"%char) as [->|_].
  - exfalso. apply (Hr "010"%char); [by left | done].
  - rewrite IH; [done|]. intros d Hd. apply Hr. by right.
Qed.

(** Splitting the joined text at its newlines gives the rows back. *)
Lemma split_lines_join (rows : list string) :
  rows <> [] -> Forall no_newline rows -> split_lines (join nl rows) = rows.
Proof.
  induction rows as [|r rows IH]; intros Hne Hrows; [done|].
  apply Forall_cons in Hrows as [Hr Hrows].
  destruct rows as [|r' rows].
  - simpl. by apply split_lines_row.
  - change (join nl (r :: r' :: rows)) with (r +:+ nl +:+ join nl (r' :: rows)).
    rewrite split_lines_row_nl by done. by rewrite IH.
Qed.

Lemma fm2_line_no_newline up down left right a b start select reset :
  no_newline (fm2_line up down left right a b start select reset).
Proof.
  intros c Hc Heq. subst c.
  destruct up, down, left, right, a, b, start, select, reset;
    simpl in Hc; intuition discriminate.
Qed.

Lemma fm2_smb_header_no_newline : Forall no_newline fm2_smb_header.
Proof.
  unfold fm2_smb_header. repeat apply Forall_cons_2; try apply Forall_nil_2;
    intros c Hc Heq; subst c; simpl in Hc; intuition discriminate.
Qed.

Lemma fm2_lines_no_newline up down left right a b start select reset lo hi :
  Forall no_newline (fm2_lines up down left right a b start select reset lo hi).
Proof.
  unfold fm2_lines. apply Forall_fmap, Forall_forall. intros i _.
  apply fm2_line_no_newline.
Qed.

Lemma fm2_smb_rows_no_newline left right down b a header padding lo hi :
  Forall no_newline (fm2_smb_rows left right down b a header padding lo hi).
Proof.
  unfold fm2_smb_rows. destruct header.
  - apply Forall_app. split; [apply fm2_smb_header_no_newline|].
    apply fm2_lines_no_newline.
  - apply fm2_lines_no_newline.
Qed.

(** The lines of the movie text are the rows [fm2_smb] joined. *)
Lemma fm2_smb_split_lines left right down b a header padding lo hi :
  fm2_smb_rows left right down b a header padding lo hi <> [] ->
  split_lines (fm2_smb left right down b a header padding lo hi)
  = fm2_smb_rows left right down b a header padding lo hi.
Proof.
  intros Hne. unfold fm2_smb. apply split_lines_join; [done|].
  apply fm2_smb_rows_no_newline.
Qed.

(** *** Frame rows of [fm2_smb] *)

Lemma fm2_smb_rows_header left right down b a padding lo hi :
  fm2_smb_rows left right down b a true padding lo hi
  = fm2_smb_header ++ fm2_smb_rows left right down b a false padding lo hi.
Proof. reflexivity. Qed.

(** The row of frame [k], as [fm2_smb] builds it from its five sets. *)
Lemma fm2_smb_frame_row left right down b a (padding : bool) (lo hi k : Z) :
  lo <= k < hi ->
  let f := if padding then k - 196 else k in
  fm2_smb_rows left right down b a false padding (Some lo) (Some hi)
    !! Z.to_nat (k - lo)
  = Some (fm2_line false (mem f down) (mem f left) (mem f right)
            (mem f a) (mem f b)
            (padding && bool_decide (k = 33)) false
            (padding && bool_decide (k = 0))).
Proof.
  intros Hk f. unfold fm2_smb_rows.
  rewrite fm2_lines_lookup by done. subst f.
  destruct padding; simpl.
  - by rewrite !mem_shift196, !mem_singleton, !mem_empty.
  - by rewrite !mem_empty.
Qed.

(** C1: with explicit bounds, [fm2_smb] emits the header rows, when
    requested, followed by exactly [maxFrame - minFrame] frame rows (none
    when the range is empty); the text is those rows joined by newlines;
    and in the row of frame [i] the character at a button's position is
    the button's letter when [i] (less the padding offset 196, when padding
    is on) is in that button's set, and ['.'] otherwise. *)
Theorem fm2_smb_frame_lines (left right down b a : gset Z)
    (header padding : bool) (minFrame maxFrame : Z) :
  let rows :=
    fm2_smb_rows left right down b a header padding (Some minFrame) (Some maxFrame) in
  let hdr := if header then fm2_smb_header else [] in
  let f i := if padding then i - 196 else i in
  length rows = (length hdr + Z.to_nat (maxFrame - minFrame))%nat /\
  (minFrame <= maxFrame ->
     Z.of_nat (length rows) = Z.of_nat (length hdr) + (maxFrame - minFrame)) /\
  take (length hdr) rows = hdr /\
  (rows <> [] ->
     split_lines
       (fm2_smb left right down b a header padding (Some minFrame) (Some maxFrame))
     = rows) /\
  forall i, minFrame <= i < maxFrame ->
    exists line,
      rows !! (length hdr + Z.to_nat (i - minFrame))%nat = Some line /\
      String.length line = 22%nat /\
      String.get 3 line = Some (if mem (f i) right then "R" else ".")%char /\
      String.get 4 line = Some (if mem (f i) left then "L" else ".")%char /\
      String.get 5 line = Some (if mem (f i) down then "D" else ".")%char /\
      String.get 9 line = Some (if mem (f i) b then "B" else ".")%char /\
      String.get 10 line = Some (if mem (f i) a then "A" else ".")%char.
Proof.
  intros rows hdr f.
  assert (Hrows : rows = hdr ++ fm2_smb_rows left right down b a false padding
                                 (Some minFrame) (Some maxFrame)).
  { subst rows hdr. by destruct header. }
  assert (Hlen : length rows = (length hdr + Z.to_nat (maxFrame - minFrame))%nat).
  { rewrite Hrows, length_app. f_equal. unfold fm2_smb_rows.
    apply fm2_lines_length. }
  split; [done|]. split; [rewrite Hlen; lia|].
  split; [by rewrite Hrows, take_app_length|].
  split; [apply fm2_smb_split_lines|].
  intros i Hi. eexists. split.
  { rewrite Hrows, lookup_app_r by lia.
    replace (length hdr + Z.to_nat (i - minFrame) - length hdr)%nat
      with (Z.to_nat (i - minFrame)) by lia.
    by apply fm2_smb_frame_row. }
  split; [apply fm2_line_length|].
  match goal with
  | |- context [fm2_line ?u ?d ?l ?r ?a' ?b' ?s ?e ?t] =>
      destruct (fm2_line_buttons u d l r a' b' s e t)
        as (HR & HL & HD & _ & _ & _ & HB & HA)
  end.
  subst f. simpl. by rewrite HR, HL, HD, HB, HA.
Qed.

(** *** The computed [maxFrame] *)

(** The maximum [fm2_lines] takes over its sets, for any list of sets. *)
Lemma foldl_maxd_spec (s0 : gset Z) (ss : list (gset Z)) :
  let m := foldl Z.max (maxd s0 0) ((fun s => maxd s 0) <$> ss) in
  (m = 0 \/ exists s, s ∈ s0 :: ss /\ m ∈ s) /\
  forall s y, s ∈ s0 :: ss -> y ∈ s -> y <= m.
Proof.
  intros m.
  destruct (foldl_max_spec ((fun s => maxd s 0) <$> ss) (maxd s0 0))
    as (Hm & Hle & Hub). fold m in Hm, Hle, Hub.
  assert (Hmem : forall s, s ∈ s0 :: ss -> maxd s 0 <= m).
  { intros s Hs. apply elem_of_cons in Hs as [->|Hs]; [done|].
    apply Hub, list_elem_of_fmap. by exists s. }
  split.
  - assert (Hin : exists s, s ∈ s0 :: ss /\ m = maxd s 0).
    { destruct Hm as [Hm|Hm].
      - exists s0. split; [apply elem_of_cons; by left | done].
      - apply list_elem_of_fmap in Hm as (s & -> & Hs).
        exists s. split; [apply elem_of_cons; by right | done]. }
    destruct Hin as (s & Hs & ->).
    destruct (maxd_0_spec s) as ([[_ H0]|Hin] & _); [by left|].
    right. by exists s.
  - intros s y Hs Hy. specialize (Hmem s Hs).
    destruct (maxd_0_spec s) as (_ & Hb). specialize (Hb y Hy). lia.
Qed.

Lemma computed_maxFrame_eq up down left right a b start select reset :
  computed_maxFrame up down left right a b start select reset
  = foldl Z.max (maxd up 0)
      ((fun s => maxd s 0) <$> [down; left; right; a; b; start; select; reset]) + 1.
Proof. reflexivity. Qed.

Lemma fm2_lines_computed up down left right a b start select reset lo :
  fm2_lines up down left right a b start select reset lo None
  = fm2_lines up down left right a b start select reset lo
      (Some (computed_maxFrame up down left right a b start select reset)).
Proof. reflexivity. Qed.

Lemma fm2_lines_from_0 up down left right a b start select reset hi :
  fm2_lines up down left right a b start select reset None hi
  = fm2_lines up down left right a b start select reset (Some 0) hi.
Proof. reflexivity. Qed.

(** C4, as the code has it: when [maxFrame] is omitted it is computed as
    one past the largest of 0 and the frame indices in the input sets,
    whatever [minFrame] is: with [minFrame] given the rows of the frames
    from [minFrame] up to that bound are emitted, with [minFrame] omitted
    those from frame 0; when every input set is empty the bound is 1, and
    with [minFrame] omitted too exactly one frame row, the row of frame 0
    with no button pressed, is emitted. *)
Theorem computed_maxFrame_spec (up down left right a b start select reset : gset Z) :
  let U := up ∪ down ∪ left ∪ right ∪ a ∪ b ∪ start ∪ select ∪ reset in
  let M := computed_maxFrame up down left right a b start select reset in
  (forall x, x ∈ U -> 0 <= x) ->
  (forall x, x ∈ U -> x < M) /\
  (U <> ∅ -> M - 1 ∈ U) /\
  (U = ∅ -> M = 1) /\
  (forall minFrame : option Z,
     fm2_lines up down left right a b start select reset minFrame None
     = fm2_lines up down left right a b start select reset minFrame (Some M)) /\
  (forall minFrame : Z,
     length (fm2_lines up down left right a b start select reset (Some minFrame) None)
     = Z.to_nat (M - minFrame)) /\
  fm2_lines up down left right a b start select reset None None
  = fm2_lines up down left right a b start select reset (Some 0) (Some M) /\
  (U = ∅ ->
   fm2_lines up down left right a b start select reset None None
   = ["|0|........|........||"]).
Proof.
  intros U M Hnonneg.
  destruct (foldl_maxd_spec up [down; left; right; a; b; start; select; reset])
    as (Hm & Hub).
  assert (HU : forall x, x ∈ U <->
            exists s, s ∈ [up; down; left; right; a; b; start; select; reset] /\ x ∈ s).
  { intros x. subst U. rewrite !elem_of_union. split.
    - intros H. repeat (destruct H as [H|H]); eexists; (split; [|exact H]);
        repeat (first [apply list_elem_of_here | apply list_elem_of_further]).
    - intros (s & Hs & Hx).
      repeat (apply elem_of_cons in Hs as [->|Hs]; [tauto|]).
      by apply elem_of_nil in Hs. }
  assert (HM : M - 1 = foldl Z.max (maxd up 0)
            ((fun s => maxd s 0) <$> [down; left; right; a; b; start; select; reset])).
  { subst M. rewrite computed_maxFrame_eq. lia. }
  rewrite <- HM in Hm, Hub.
  assert (Hlt : forall x, x ∈ U -> x < M).
  { intros x Hx. apply HU in Hx as (s & Hs & Hx). specialize (Hub s x Hs Hx). lia. }
  assert (Hin : U <> ∅ -> M - 1 ∈ U).
  { intros Hne. destruct Hm as [H0|(s & Hs & Hin)].
    - apply set_choose_L in Hne as (x & Hx).
      specialize (Hnonneg x Hx). specialize (Hlt x Hx).
      replace (M - 1) with x by lia. done.
    - apply HU. by exists s. }
  assert (Hempty : U = ∅ -> M = 1).
  { intros HE. destruct Hm as [H0|(s & Hs & Hin')]; [lia|].
    exfalso. assert (M - 1 ∈ U) as Hx by (apply HU; by exists s).
    rewrite HE in Hx. by apply not_elem_of_empty in Hx. }
  split; [done|]. split; [done|]. split; [done|].
  split; [intros minFrame; apply fm2_lines_computed|].
  split; [intros minFrame; rewrite fm2_lines_computed; apply fm2_lines_length|].
  split; [done|].
  intros HE. rewrite fm2_lines_computed. fold M. rewrite (Hempty HE).
  assert (Hall : forall s, s ∈ [up; down; left; right; a; b; start; select; reset] ->
            mem 0 s = false).
  { intros s Hs. apply bool_decide_eq_false. intros Hx.
    assert (0 ∈ U) as H0 by (apply HU; by exists s).
    rewrite HE in H0. by apply not_elem_of_empty in H0. }
  unfold fm2_lines. simpl.
  rewrite !Hall by (repeat (first [apply list_elem_of_here | apply list_elem_of_further])).
  reflexivity.
Qed.

(** With every set empty and both bounds omitted the computed [maxFrame]
    is 1, not [minFrame = 0], and one frame row is emitted, not none. *)
Lemma computed_maxFrame_all_empty :
  ~ (computed_maxFrame ∅ ∅ ∅ ∅ ∅ ∅ ∅ ∅ ∅ = 0 /\
     length (fm2_lines ∅ ∅ ∅ ∅ ∅ ∅ ∅ ∅ ∅ None None) = 0%nat).
Proof. intros [H _]. vm_compute in H. discriminate H. Qed.

Lemma computed_maxFrame_spec_at_presses :
  let U : gset Z := ∅ ∪ ∅ ∪ {[2; 7]} ∪ {[3]} ∪ ∅ ∪ ∅ ∪ ∅ ∪ ∅ ∪ ∅ in
  let M := computed_maxFrame ∅ ∅ {[2; 7]} {[3]} ∅ ∅ ∅ ∅ ∅ in
  (forall x, x ∈ U -> x < M) /\
  (U <> ∅ -> M - 1 ∈ U) /\
  (U = ∅ -> M = 1) /\
  (forall minFrame : option Z,
     fm2_lines ∅ ∅ {[2; 7]} {[3]} ∅ ∅ ∅ ∅ ∅ minFrame None
     = fm2_lines ∅ ∅ {[2; 7]} {[3]} ∅ ∅ ∅ ∅ ∅ minFrame (Some M)) /\
  (forall minFrame : Z,
     length (fm2_lines ∅ ∅ {[2; 7]} {[3]} ∅ ∅ ∅ ∅ ∅ (Some minFrame) None)
     = Z.to_nat (M - minFrame)) /\
  fm2_lines ∅ ∅ {[2; 7]} {[3]} ∅ ∅ ∅ ∅ ∅ None None
  = fm2_lines ∅ ∅ {[2; 7]} {[3]} ∅ ∅ ∅ ∅ ∅ (Some 0) (Some M) /\
  (U = ∅ ->
   fm2_lines ∅ ∅ {[2; 7]} {[3]} ∅ ∅ ∅ ∅ ∅ None None = ["|0|........|........||"]).
Proof.
  apply (computed_maxFrame_spec ∅ ∅ {[2; 7]} {[3]} ∅ ∅ ∅ ∅ ∅).
  intros x Hx. set_unfold. lia.
Defined.

(** The padded sets always hold the start press at frame 33. *)
Lemma computed_maxFrame_padded (left right down b a : gset Z) :
  34 <= computed_maxFrame ∅ (shift196 down) (shift196 left) (shift196 right)
          (shift196 a) (shift196 b) (∅ ∪ {[33]}) ∅ (∅ ∪ {[0]}).
Proof.
  rewrite computed_maxFrame_eq.
  match goal with
  | |- context [foldl Z.max (maxd ?s0 0) (_ <$> ?ss)] =>
      destruct (foldl_maxd_spec s0 ss) as (_ & Hub)
  end.
  specialize (Hub (∅ ∪ {[33]}) 33).
  assert (33 <= foldl Z.max (maxd (∅ : gset Z) 0)
            ((fun s => maxd s 0) <$>
               [shift196 down; shift196 left; shift196 right; shift196 a;
                shift196 b; ∅ ∪ {[33]}; ∅; ∅ ∪ {[0]}])).
  { apply Hub; [|set_solver].
    do 6 apply list_elem_of_further. apply list_elem_of_here. }
  lia.
Qed.

(** Whatever the sets, the padded track with no frame bounds has the 34
    rows of frames 0 to 33. *)
Lemma fm2_smb_padded_rows_34 (left right down b a : gset Z) :
  (34 <= length (fm2_smb_rows left right down b a false true None None))%nat.
Proof.
  unfold fm2_smb_rows. rewrite fm2_lines_computed, fm2_lines_from_0.
  rewrite fm2_lines_length.
  pose proof (computed_maxFrame_padded left right down b a). lia.
Qed.

(** Membership in a literal list. *)
Ltac in_list :=
  repeat (first [apply list_elem_of_here | apply list_elem_of_further]).

(** The frame rows of the padded movie with no frame bounds: 34 rows, or as
    many as the last press needs. *)
Lemma fm2_smb_padded_length (left right down b a : gset Z) :
  let U := left ∪ right ∪ down ∪ b ∪ a in
  let n := Z.of_nat (length (fm2_smb_rows left right down b a false true None None)) in
  34 <= n /\
  (forall x, x ∈ U -> x + 196 < n) /\
  (n = 34 \/ n - 197 ∈ U).
Proof.
  intros U n.
  assert (Hn : n = computed_maxFrame ∅ (shift196 down) (shift196 left) (shift196 right)
                     (shift196 a) (shift196 b) (∅ ∪ {[33]}) ∅ (∅ ∪ {[0]})).
  { subst n. unfold fm2_smb_rows.
    rewrite fm2_lines_computed, fm2_lines_from_0, fm2_lines_length.
    pose proof (computed_maxFrame_padded left right down b a). lia. }
  pose proof (computed_maxFrame_padded left right down b a) as H34.
  rewrite <- Hn in H34. rewrite computed_maxFrame_eq in Hn.
  match type of Hn with
  | context [foldl Z.max (maxd ?s0 0) (_ <$> ?ss)] =>
      destruct (foldl_maxd_spec s0 ss) as (Hm & Hub)
  end.
  cbv zeta in Hm, Hub. rewrite <- (Z.add_simpl_r _ 1), <- Hn in Hm, Hub.
  assert (Hshift : forall x (s : gset Z), x ∈ s -> x + 196 ∈ shift196 s).
  { intros x s Hx. apply mem_true. rewrite mem_shift196. apply mem_true.
    by replace (x + 196 - 196) with x by lia. }
  split; [done|]. split.
  - intros x Hx. subst U. rewrite !elem_of_union in Hx.
    assert (x + 196 <= n - 1); [|lia].
    destruct Hx as [[[[Hx|Hx]|Hx]|Hx]|Hx]; apply Hshift in Hx;
      (eapply Hub; [|exact Hx]); in_list.
  - destruct (decide (n = 34)) as [|Hne]; [by left|]. right.
    destruct Hm as [Hm|(s & Hs & Hin)]; [lia|].
    assert (Hback : forall s' : gset Z, n - 1 ∈ shift196 s' -> n - 197 ∈ s').
    { intros s' H. apply mem_true in H. rewrite mem_shift196 in H.
      apply mem_true in H. by replace (n - 197) with (n - 1 - 196) by lia. }
    subst U. rewrite !elem_of_union.
    repeat (apply elem_of_cons in Hs as [->|Hs]).
    + by apply not_elem_of_empty in Hin.
    + apply Hback in Hin. tauto.
    + apply Hback in Hin. tauto.
    + apply Hback in Hin. tauto.
    + apply Hback in Hin. tauto.
    + apply Hback in Hin. tauto.
    + apply elem_of_union in Hin as [Hin|Hin]; [by apply not_elem_of_empty in Hin|].
      apply elem_of_singleton in Hin. lia.
    + by apply not_elem_of_empty in Hin.
    + apply elem_of_union in Hin as [Hin|Hin]; [by apply not_elem_of_empty in Hin|].
      apply elem_of_singleton in Hin. lia.
    + by apply elem_of_nil in Hs.
Qed.

(** The text [fm2_smb] returns is empty only when it has no row. *)
Lemma fm2_smb_rows_nonempty left right down b a header padding lo hi :
  fm2_smb left right down b a header padding lo hi <> "" ->
  fm2_smb_rows left right down b a header padding lo hi <> [].
Proof. intros Hne Hrows. apply Hne. unfold fm2_smb. by rewrite Hrows. Qed.

(** The line of the text at place [i] after the header lines, if any, is
    the frame row at place [i]. *)
Lemma fm2_smb_text_row left right down b a (header padding : bool) lo hi (i : nat) :
  fm2_smb left right down b a header padding lo hi <> "" ->
  split_lines (fm2_smb left right down b a header padding lo hi)
    !! ((if header then 9 else 0) + i)%nat
  = fm2_smb_rows left right down b a false padding lo hi !! i.
Proof.
  intros Hne. rewrite fm2_smb_split_lines by by apply fm2_smb_rows_nonempty.
  destruct header; [|done].
  rewrite fm2_smb_rows_header, lookup_app_r by (simpl; lia).
  f_equal. simpl. lia.
Qed.

(** The padded movie with no frame bounds is never the empty text. *)
Lemma fm2_smb_padded_nonempty left right down b a (header : bool) :
  fm2_smb left right down b a header true None None <> "".
Proof.
  intros Htext.
  pose proof (fm2_smb_padded_rows_34 left right down b a) as Hlen.
  assert (Hrows : fm2_smb_rows left right down b a header true None None <> []).
  { destruct header.
    - rewrite fm2_smb_rows_header. by destruct fm2_smb_header.
    - intros H. rewrite H in Hlen. simpl in Hlen. lia. }
  pose proof (fm2_smb_split_lines left right down b a header true None None Hrows)
    as Hsplit.
  rewrite Htext in Hsplit. simpl in Hsplit.
  destruct header.
  - rewrite fm2_smb_rows_header in Hsplit. discriminate Hsplit.
  - rewrite <- Hsplit in Hlen. simpl in Hlen. lia.
Qed.

(** C10: with padding on, all five sets empty and no frame bounds, the
    text [fm2_smb] returns has exactly 34 frame rows, frames 0 to 33, after
    the header lines if any: the reset at frame 0 and the start press at
    frame 33 count in the computed [maxFrame]; and whatever the sets, the
    padded text with no frame bounds has at least those 34 frame rows. *)
Theorem fm2_smb_padded_empty_34_rows :
  let rows := ["|1|........|........||"] ++ replicate 32 "|0|........|........||"
              ++ ["|0|....T...|........||"] in
  length rows = 34%nat /\
  fm2_smb ∅ ∅ ∅ ∅ ∅ false true None None = join nl rows /\
  split_lines (fm2_smb ∅ ∅ ∅ ∅ ∅ false true None None) = rows /\
  fm2_smb ∅ ∅ ∅ ∅ ∅ true true None None = join nl (fm2_smb_header ++ rows) /\
  split_lines (fm2_smb ∅ ∅ ∅ ∅ ∅ true true None None) = fm2_smb_header ++ rows /\
  forall (left right down b a : gset Z) (header : bool),
    ((if header then 9 else 0) + 34
     <= length (split_lines (fm2_smb left right down b a header true None None)))%nat.
Proof.
  intros rows.
  split; [reflexivity|]. split; [by vm_compute|]. split; [by vm_compute|].
  split; [by vm_compute|]. split; [by vm_compute|].
  intros left right down b a header.
  pose proof (fm2_smb_padded_rows_34 left right down b a) as Hlen.
  rewrite fm2_smb_split_lines
    by (apply fm2_smb_rows_nonempty, fm2_smb_padded_nonempty).
  destruct header; [|lia].
  rewrite fm2_smb_rows_header, length_app.
  change (length fm2_smb_header) with 9%nat. lia.
Qed.

(** *** Padding *)

(** Every row [fm2_lines] emits is the row of the frame at its place. *)
Lemma fm2_lines_lookup_inv up down left right a b start select reset
    (minFrame maxFrame : option Z) (i : nat) (line : string) :
  fm2_lines up down left right a b start select reset minFrame maxFrame !! i
  = Some line ->
  let k := default 0 minFrame + Z.of_nat i in
  line = fm2_line (mem k up) (mem k down) (mem k left) (mem k right)
           (mem k a) (mem k b) (mem k start) (mem k select) (mem k reset).
Proof.
  unfold fm2_lines, range. rewrite list_lookup_fmap.
  intros H. apply fmap_Some in H as (k' & Hk' & ->).
  apply lookup_seqZ in Hk' as [-> _].
  by destruct minFrame.
Qed.

(** C5: with padding on, whatever the five input sets, the header option
    and the frame bounds, in the text [fm2_smb] returns the row of frame
    [k] carries the reset flag exactly when [k = 0], the start press ['T']
    exactly when [k = 33], and a button's letter exactly when
    [k - (33 + 163)] is in that button's input set: every input index is
    moved forward by the start frame 33 plus the 163 frames of the menu,
    196 frames in all.  With no frame bounds the rows of frame 0 and of
    frame 33 are emitted and so is the row of every input index moved
    forward, and when no input index is negative nothing is pressed in the
    rows between the start press and frame [33 + 163]. *)
Theorem fm2_smb_padding (left right down b a : gset Z) :
  (forall (header : bool) (minFrame maxFrame : option Z) (i : nat) (line : string),
     let text := fm2_smb left right down b a header true minFrame maxFrame in
     text <> "" ->
     split_lines text !! ((if header then 9 else 0) + i)%nat = Some line ->
     let k := default 0 minFrame + Z.of_nat i in
     String.get 1 line = Some (if bool_decide (k = 0) then "1" else "0")%char /\
     String.get 7 line = Some (if bool_decide (k = 33) then "T" else ".")%char /\
     String.get 3 line = Some (if mem (k - (33 + 163)) right then "R" else ".")%char /\
     String.get 4 line = Some (if mem (k - (33 + 163)) left then "L" else ".")%char /\
     String.get 5 line = Some (if mem (k - (33 + 163)) down then "D" else ".")%char /\
     String.get 9 line = Some (if mem (k - (33 + 163)) b then "B" else ".")%char /\
     String.get 10 line = Some (if mem (k - (33 + 163)) a then "A" else ".")%char) /\
  (forall header : bool,
     let lines := split_lines (fm2_smb left right down b a header true None None) in
     let row (k : Z) := lines !! ((if header then 9 else 0) + Z.to_nat k)%nat in
     (exists reset_row,
        row 0 = Some reset_row /\ String.get 1 reset_row = Some "1"%char) /\
     (exists start_row,
        row 33 = Some start_row /\ String.get 7 start_row = Some "T"%char) /\
     (forall x, 0 <= 33 + 163 + x -> x ∈ left ∪ right ∪ down ∪ b ∪ a ->
        exists press_row,
          row (33 + 163 + x) = Some press_row /\
          String.get 3 press_row = Some (if mem x right then "R" else ".")%char /\
          String.get 4 press_row = Some (if mem x left then "L" else ".")%char /\
          String.get 5 press_row = Some (if mem x down then "D" else ".")%char /\
          String.get 9 press_row = Some (if mem x b then "B" else ".")%char /\
          String.get 10 press_row = Some (if mem x a then "A" else ".")%char) /\
     ((forall x, x ∈ left ∪ right ∪ down ∪ b ∪ a -> 0 <= x) ->
      forall k line, 33 < k < 33 + 163 -> row k = Some line ->
        line = "|0|........|........||")).
Proof.
  assert (Hrow : forall (minFrame maxFrame : option Z) (i : nat) (line : string),
     fm2_smb_rows left right down b a false true minFrame maxFrame !! i
     = Some line ->
     let k := default 0 minFrame + Z.of_nat i in
     line = fm2_line false (mem (k - 196) down) (mem (k - 196) left)
              (mem (k - 196) right) (mem (k - 196) a) (mem (k - 196) b)
              (bool_decide (k = 33)) false (bool_decide (k = 0))).
  { intros minFrame maxFrame i line H k. unfold fm2_smb_rows in H.
    apply fm2_lines_lookup_inv in H. fold k in H. subst line.
    by rewrite !mem_shift196, !mem_singleton, !mem_empty. }
  assert (Hchars : forall (k : Z) (line : string),
     line = fm2_line false (mem (k - 196) down) (mem (k - 196) left)
              (mem (k - 196) right) (mem (k - 196) a) (mem (k - 196) b)
              (bool_decide (k = 33)) false (bool_decide (k = 0)) ->
     String.get 1 line = Some (if bool_decide (k = 0) then "1" else "0")%char /\
     String.get 7 line = Some (if bool_decide (k = 33) then "T" else ".")%char /\
     String.get 3 line = Some (if mem (k - (33 + 163)) right then "R" else ".")%char /\
     String.get 4 line = Some (if mem (k - (33 + 163)) left then "L" else ".")%char /\
     String.get 5 line = Some (if mem (k - (33 + 163)) down then "D" else ".")%char /\
     String.get 9 line = Some (if mem (k - (33 + 163)) b then "B" else ".")%char /\
     String.get 10 line = Some (if mem (k - (33 + 163)) a then "A" else ".")%char).
  { intros k line ->. change (33 + 163) with 196.
    rewrite fm2_line_reset.
    match goal with
    | |- context [fm2_line ?u ?d ?l ?r ?a' ?b' ?s ?e ?t] =>
        destruct (fm2_line_buttons u d l r a' b' s e t)
          as (HR & HL & HD & _ & HT & _ & HB & HA)
    end.
    by rewrite HR, HL, HD, HT, HB, HA. }
  split.
  { intros header minFrame maxFrame i line text Htext Hline k.
    subst text. rewrite fm2_smb_text_row in Hline by done.
    apply Hchars. by apply (Hrow minFrame maxFrame i). }
  intros header lines row.
  assert (Hlook : forall k, 0 <= k ->
            row k = fm2_smb_rows left right down b a false true None None
                      !! Z.to_nat k).
  { intros k Hk. subst row lines. cbv beta.
    apply fm2_smb_text_row, fm2_smb_padded_nonempty. }
  destruct (fm2_smb_padded_length left right down b a) as (H34 & Hin & _).
  assert (Hex : forall k, 0 <= k ->
            k < Z.of_nat (length (fm2_smb_rows left right down b a false true
                                    None None)) ->
            exists line, row k = Some line /\
              line = fm2_line false (mem (k - 196) down) (mem (k - 196) left)
                       (mem (k - 196) right) (mem (k - 196) a) (mem (k - 196) b)
                       (bool_decide (k = 33)) false (bool_decide (k = 0))).
  { intros k Hk Hlt.
    destruct (lookup_lt_is_Some_2
                (fm2_smb_rows left right down b a false true None None)
                (Z.to_nat k)) as [line Hline]; [lia|].
    exists line. split; [by rewrite Hlook|].
    apply Hrow in Hline. cbv zeta in Hline. simpl default in Hline.
    by replace (0 + Z.of_nat (Z.to_nat k)) with k in Hline by lia. }
  split; [|split; [|split]].
  - destruct (Hex 0) as (line & Hline & Heq); [lia | lia |].
    exists line. split; [done|].
    by destruct (Hchars 0 line Heq) as (H1 & _).
  - destruct (Hex 33) as (line & Hline & Heq); [lia | lia |].
    exists line. split; [done|].
    by destruct (Hchars 33 line Heq) as (_ & H7 & _).
  - intros x Hx HU.
    destruct (Hex (33 + 163 + x)) as (line & Hline & Heq);
      [lia | specialize (Hin x HU); lia |].
    exists line. split; [done|].
    destruct (Hchars _ line Heq) as (_ & _ & HR & HL & HD & HB & HA).
    replace (33 + 163 + x - (33 + 163)) with x in HR, HL, HD, HB, HA by lia.
    done.
  - intros Hnn k line Hk Hline.
    rewrite Hlook in Hline by lia.
    apply Hrow in Hline. cbv zeta in Hline. simpl default in Hline.
    replace (0 + Z.of_nat (Z.to_nat k)) with k in Hline by lia.
    assert (Hno : forall s : gset Z,
              (forall y, y ∈ s -> y ∈ left ∪ right ∪ down ∪ b ∪ a) ->
              mem (k - 196) s = false).
    { intros s Hs. apply bool_decide_eq_false. intros Hks.
      specialize (Hnn (k - 196)). apply Hs in Hks. specialize (Hnn Hks). lia. }
    rewrite !Hno in Hline by (intros y Hy; rewrite !elem_of_union; tauto).
    rewrite !bool_decide_eq_false_2 in Hline by lia. exact Hline.
Qed.

(** ** Loops *)

Lemma bind_Return {A B : Type} (a : A) (k : A -> result B) :
  Return a ≫= k = k a.
Proof. reflexivity. Qed.

Lemma for_each_snoc {A S : Type} (xs : list A) (x : A)
    (body : S -> A -> result S) (s : S) :
  for_each (xs ++ [x]) body s = for_each xs body s ≫= fun s' => body s' x.
Proof.
  revert s. induction xs as [|y xs IH]; intros s; simpl.
  - by destruct (body s x).
  - destruct (body s y) as [s'|e]; simpl; [apply IH | done].
Qed.

Lemma range_snoc (n : nat) :
  range 0 (Z.of_nat (S n)) = range 0 (Z.of_nat n) ++ [Z.of_nat n].
Proof.
  unfold range. rewrite !Z.sub_0_r. by rewrite seqZ_S.
Qed.

(** A property of every [range 0 hi] follows from its steps. *)
Lemma range_ind (P : Z -> Prop) (hi : Z) :
  P 0 ->
  (forall n : nat, Z.of_nat n < hi -> P (Z.of_nat n) -> P (Z.of_nat (S n))) ->
  0 <= hi -> P hi.
Proof.
  intros H0 HS Hhi.
  assert (H : forall n : nat, Z.of_nat n <= hi -> P (Z.of_nat n)).
  { induction n as [|n IH]; intros Hn; [done|]. apply HS; [lia|]. apply IH. lia. }
  rewrite <- (Z2Nat.id hi) by done. apply H. lia.
Qed.

(** A parameter of a conforming configuration has a value of its domain. *)
Lemma conforms_bind (cfg : config) (f : Z -> list parameter) (lo hi i : Z)
    (p : parameter) :
  conforms (range lo hi ≫= f) cfg -> lo <= i < hi -> p ∈ f i -> in_domain p cfg.
Proof.
  unfold conforms. rewrite Forall_bind, Forall_forall. intros H Hi Hp.
  specialize (H i). simpl in H. rewrite Forall_forall in H.
  apply H; [by apply elem_of_range | done].
Qed.

(** ** The bitmask-alphabet representation *)

Lemma land_pow2_testbit (z n : Z) :
  0 <= n -> (Z.land z (2 ^ n) =? 0)%Z = negb (Z.testbit z n).
Proof.
  intros Hn. destruct (Z.testbit z n) eqn:Hb; simpl.
  - apply Z.eqb_neq. intros H0.
    assert (Z.testbit (Z.land z (2 ^ n)) n = true) as Ht.
    { rewrite Z.land_spec, Hb, Z.pow2_bits_true; done. }
    rewrite H0, Z.bits_0 in Ht. discriminate.
  - apply Z.eqb_eq, Z.bits_inj'. intros m Hm.
    rewrite Z.land_spec, Z.bits_0, Z.pow2_bits_eqb by done.
    destruct (Z.eqb_spec n m) as [->|_]; [by rewrite Hb | by rewrite andb_false_r].
Qed.

Lemma alphabet_conforms (cfg : config) (k : Z) :
  conforms AlphabetRepresentation.manipulator cfg -> 0 <= k < 400 * 60 ->
  exists bits, cfg !! pretty k = Some (VInt bits) /\ 0 <= bits < 16.
Proof.
  intros Hc Hk.
  assert (in_domain (EnumParameter (pretty k) (VInt <$> range 0 16)) cfg) as Hd.
  { eapply conforms_bind; [exact Hc | exact Hk | apply list_elem_of_here]. }
  destruct Hd as (v & Hv & Hin).
  apply list_elem_of_fmap in Hin as (z & -> & Hz).
  apply elem_of_range in Hz. by exists z.
Qed.

(** One turn of a loop that adds frame [n] to [s] when [B n] holds. *)
Lemma add_frame_spec (s : gset Z) (B : Z -> bool) (n : nat) :
  (forall k, k ∈ s <-> 0 <= k < Z.of_nat n /\ B k = true) ->
  forall k, k ∈ (if B (Z.of_nat n) then s ∪ {[Z.of_nat n]} else s)
            <-> 0 <= k < Z.of_nat (S n) /\ B k = true.
Proof.
  intros Hs k. destruct (B (Z.of_nat n)) eqn:Hn.
  - rewrite elem_of_union, elem_of_singleton, Hs. split.
    + intros [[Hk Hb]| ->]; split; (lia || done).
    + intros [Hk Hb]. destruct (decide (k = Z.of_nat n)); [by right|].
      left. split; [lia | done].
  - rewrite Hs. split; intros [Hk Hb]; (split; [|done]).
    + lia.
    + destruct (decide (k = Z.of_nat n)) as [->|]; [congruence | lia].
Qed.

(** What the loop of [AlphabetRepresentation.interpret] has built after the
    frames below [hi]. *)
Lemma alphabet_loop (cfg : config) (hi : Z) :
  0 <= hi ->
  (forall k, 0 <= k < hi -> exists bits, cfg !! pretty k = Some (VInt bits)) ->
  exists left' right' running jumping,
    for_each (range 0 hi) (AlphabetRepresentation.body cfg) (∅, ∅, ∅, ∅)
    = Return (left', right', running, jumping) /\
    forall k,
      (k ∈ left' <-> 0 <= k < hi /\ alphabet_bit cfg 0 k = true) /\
      (k ∈ right' <-> 0 <= k < hi /\ alphabet_bit cfg 1 k = true) /\
      (k ∈ running <-> 0 <= k < hi /\ alphabet_bit cfg 2 k = true) /\
      (k ∈ jumping <-> 0 <= k < hi /\ alphabet_bit cfg 3 k = true).
Proof.
  intros Hhi. pattern hi. apply range_ind; [| |done].
  - intros _. exists ∅, ∅, ∅, ∅. split; [done|].
    intros k. rewrite !elem_of_empty. lia.
  - intros n Hn IH Hcfg.
    destruct IH as (l & r & b & a & Hrun & Hsets); [intros k Hk; apply Hcfg; lia|].
    destruct (Hcfg (Z.of_nat n)) as (z & Hz); [lia|].
    rewrite range_snoc, for_each_snoc, Hrun. simpl.
    unfold AlphabetRepresentation.body, getitem. rewrite Hz. simpl.
    assert (Hbit : forall j m, 0 <= j -> m = 2 ^ j ->
              negb (Z.land z m =? 0)%Z = alphabet_bit cfg j (Z.of_nat n)).
    { intros j m Hj ->. rewrite land_pow2_testbit, negb_involutive by done.
      unfold alphabet_bit. by rewrite Hz. }
    rewrite (Hbit 0 1), (Hbit 1 2), (Hbit 2 4), (Hbit 3 8) by (lia || reflexivity).
    eexists _, _, _, _. split; [reflexivity|].
    intros k. split; [|split; [|split]].
    all: apply (add_frame_spec _ (alphabet_bit cfg _) n); intros k';
      destruct (Hsets k') as (H0 & H1 & H2 & H3); assumption.
Qed.

(** C7: for every bitmask-alphabet configuration, [interpret] returns, with
    an empty down set, and for every frame [k] of the horizon it puts [k]
    in the left set iff bit 0 of the frame's value is set, in the right set
    iff bit 1 is, in the run set iff bit 2 is and in the jump set iff bit 3
    is; the value 3 at frame [k] puts [k] in both left and right. *)
Theorem alphabet_interpret_bits (cfg : config) :
  conforms AlphabetRepresentation.manipulator cfg ->
  exists left' right' running jumping,
    AlphabetRepresentation.interpret cfg
    = Return (left', right', ∅, running, jumping) /\
    forall k bits, 0 <= k < 400 * 60 -> cfg !! pretty k = Some (VInt bits) ->
      (k ∈ left' <-> Z.testbit bits 0 = true) /\
      (k ∈ right' <-> Z.testbit bits 1 = true) /\
      (k ∈ running <-> Z.testbit bits 2 = true) /\
      (k ∈ jumping <-> Z.testbit bits 3 = true) /\
      (bits = 3 -> k ∈ left' /\ k ∈ right').
Proof.
  intros Hc.
  destruct (alphabet_loop cfg (400 * 60)) as (l & r & b & a & Hrun & Hsets);
    [lia| |].
  { intros k Hk. destruct (alphabet_conforms cfg k Hc Hk) as (z & Hz & _).
    by exists z. }
  exists l, r, b, a. split.
  { unfold AlphabetRepresentation.interpret. by rewrite Hrun. }
  intros k bits Hk Hbits.
  destruct (Hsets k) as (Hl & Hr & Hb & Ha).
  unfold alphabet_bit in Hl, Hr, Hb, Ha. rewrite Hbits in Hl, Hr, Hb, Ha.
  assert (H0 : k ∈ l <-> Z.testbit bits 0 = true) by (rewrite Hl; tauto).
  assert (H1 : k ∈ r <-> Z.testbit bits 1 = true) by (rewrite Hr; tauto).
  assert (H2 : k ∈ b <-> Z.testbit bits 2 = true) by (rewrite Hb; tauto).
  assert (H3 : k ∈ a <-> Z.testbit bits 3 = true) by (rewrite Ha; tauto).
  repeat (split; [done|]).
  intros ->. split; [by apply H0 | by apply H1].
Qed.

(** ** The duration-run representation *)

Lemma cursor_0 (cfg : config) : cursor cfg 0 = 0.
Proof. reflexivity. Qed.

Lemma cursor_succ (cfg : config) (i : Z) :
  0 <= i -> cursor cfg (i + 1) = cursor cfg i + move_duration_of cfg i.
Proof.
  intros Hi. unfold cursor.
  replace (Z.to_nat (i + 1)) with (S (Z.to_nat i)) by lia.
  simpl. by rewrite Z2Nat.id.
Qed.

Lemma cursor_of_nat_S (cfg : config) (n : nat) :
  cursor cfg (Z.of_nat (S n))
  = cursor cfg (Z.of_nat n) + move_duration_of cfg (Z.of_nat n).
Proof. rewrite Nat2Z.inj_succ, <- Z.add_1_r. apply cursor_succ. lia. Qed.

(** One turn of a loop that adds the range of entry [n] to [s] when [P n]
    holds. *)
Lemma add_range_spec (s : gset Z) (P : Z -> bool) (lo len : Z -> Z) (n : nat) :
  (forall x, x ∈ s <->
     exists i, 0 <= i < Z.of_nat n /\ P i = true /\ lo i <= x < lo i + len i) ->
  forall x,
    x ∈ (if P (Z.of_nat n)
         then update_range s (lo (Z.of_nat n)) (lo (Z.of_nat n) + len (Z.of_nat n))
         else s) <->
    exists i, 0 <= i < Z.of_nat (S n) /\ P i = true /\ lo i <= x < lo i + len i.
Proof.
  intros Hs x. destruct (P (Z.of_nat n)) eqn:Hn.
  - unfold update_range.
    rewrite elem_of_union, elem_of_list_to_set, elem_of_range, Hs. split.
    + intros [(i & Hi & HP & Hx)|Hx].
      * exists i. split; [lia | done].
      * exists (Z.of_nat n). split; [lia | done].
    + intros (i & Hi & HP & Hx).
      destruct (decide (i = Z.of_nat n)) as [->|Hne]; [by right|].
      left. exists i. split; [lia | done].
  - rewrite Hs. split; intros (i & Hi & HP & Hx); exists i; (split; [|done]).
    + lia.
    + destruct (decide (i = Z.of_nat n)) as [->|Hne]; [congruence | lia].
Qed.

Lemma duration_conforms (cfg : config) (i : Z) :
  conforms DurationRepresentation.manipulator cfg -> 0 <= i < 1000 ->
  (exists s, cfg !! ("move" +:+ pretty i) = Some (VStr s) /\
             VStr s ∈ DurationRepresentation.moves) /\
  (exists d, cfg !! ("move_duration" +:+ pretty i) = Some (VInt d) /\ 1 <= d <= 60) /\
  (exists f, cfg !! ("jump_frame" +:+ pretty i) = Some (VInt f) /\ 0 <= f <= 24000) /\
  (exists d, cfg !! ("jump_duration" +:+ pretty i) = Some (VInt d) /\ 1 <= d <= 32).
Proof.
  intros Hc Hi. unfold conforms, DurationRepresentation.manipulator in Hc.
  apply Forall_app in Hc as [Hmoves Hjumps].
  split; [|split; [|split]].
  - assert (in_domain (EnumParameter ("move" +:+ pretty i)
                         DurationRepresentation.moves) cfg) as (v & Hv & Hin).
    { eapply conforms_bind; [exact Hmoves | exact Hi | apply list_elem_of_here]. }
    assert (exists s, v = VStr s) as (s & ->).
    { unfold DurationRepresentation.moves in Hin.
      repeat (apply elem_of_cons in Hin as [->|Hin]; [by eexists|]).
      by apply elem_of_nil in Hin. }
    by exists s.
  - eapply (conforms_bind _ _ _ _ _ (IntegerParameter _ _ _));
      [exact Hmoves | exact Hi |].
    apply list_elem_of_further, list_elem_of_here.
  - eapply (conforms_bind _ _ _ _ _ (IntegerParameter _ _ _));
      [exact Hjumps | exact Hi |].
    apply list_elem_of_here.
  - eapply (conforms_bind _ _ _ _ _ (IntegerParameter _ _ _));
      [exact Hjumps | exact Hi |].
    apply list_elem_of_further, list_elem_of_here.
Qed.

(** What the first loop of [DurationRepresentation.interpret] has built
    after the entries below [hi]. *)
Lemma move_loop (cfg : config) (hi : Z) :
  0 <= hi ->
  (forall i, 0 <= i < hi ->
     (exists s, cfg !! ("move" +:+ pretty i) = Some (VStr s)) /\
     (exists d, cfg !! ("move_duration" +:+ pretty i) = Some (VInt d))) ->
  exists left' right' running,
    for_each (range 0 hi) (DurationRepresentation.move_body cfg) (∅, ∅, ∅, 0)
    = Return (left', right', running, cursor cfg hi) /\
    forall x,
      (x ∈ left' <->
         exists i, 0 <= i < hi /\ substring_of "L" (move_of cfg i) = true /\
                   cursor cfg i <= x < cursor cfg i + move_duration_of cfg i) /\
      (x ∈ right' <->
         exists i, 0 <= i < hi /\ substring_of "R" (move_of cfg i) = true /\
                   cursor cfg i <= x < cursor cfg i + move_duration_of cfg i) /\
      (x ∈ running <->
         exists i, 0 <= i < hi /\ substring_of "B" (move_of cfg i) = true /\
                   cursor cfg i <= x < cursor cfg i + move_duration_of cfg i).
Proof.
  intros Hhi. pattern hi. apply range_ind; [| |done].
  - intros _. exists ∅, ∅, ∅. split; [done|].
    intros x. rewrite !elem_of_empty.
    repeat split; try done; intros (i & Hi & _); lia.
  - intros n Hn IH Hcfg.
    destruct IH as (l & r & b & Hrun & Hsets); [intros i Hi; apply Hcfg; lia|].
    destruct (Hcfg (Z.of_nat n)) as ((s & Hs) & (d & Hd)); [lia|].
    rewrite range_snoc, for_each_snoc, Hrun. simpl.
    unfold DurationRepresentation.move_body, getitem. rewrite Hs, Hd. simpl.
    assert (Hmove : move_of cfg (Z.of_nat n) = s) by (unfold move_of; by rewrite Hs).
    assert (Hdur : move_duration_of cfg (Z.of_nat n) = d)
      by (unfold move_duration_of; by rewrite Hd).
    rewrite cursor_of_nat_S, Hdur.
    eexists _, _, _. split; [reflexivity|].
    intros x. rewrite <- Hmove, <- Hdur. split; [|split].
    all: apply (add_range_spec _ (fun i => substring_of _ (move_of cfg i))
                  (cursor cfg) (move_duration_of cfg) n);
      intros x'; destruct (Hsets x') as (H0 & H1 & H2); assumption.
Qed.

(** What the second loop has built after the entries below [hi]. *)
Lemma jump_loop (cfg : config) (hi : Z) :
  0 <= hi ->
  (forall i, 0 <= i < hi ->
     (exists f, cfg !! ("jump_frame" +:+ pretty i) = Some (VInt f)) /\
     (exists d, cfg !! ("jump_duration" +:+ pretty i) = Some (VInt d))) ->
  exists jumping,
    for_each (range 0 hi) (DurationRepresentation.jump_body cfg) ∅
    = Return jumping /\
    forall x,
      x ∈ jumping <->
        exists i, 0 <= i < hi /\
          jump_frame_of cfg i <= x < jump_frame_of cfg i + jump_duration_of cfg i.
Proof.
  intros Hhi. pattern hi. apply range_ind; [| |done].
  - intros _. exists ∅. split; [done|].
    intros x. rewrite elem_of_empty. split; [done|]. intros (i & Hi & _). lia.
  - intros n Hn IH Hcfg.
    destruct IH as (j & Hrun & Hj); [intros i Hi; apply Hcfg; lia|].
    destruct (Hcfg (Z.of_nat n)) as ((f & Hf) & (d & Hd)); [lia|].
    rewrite range_snoc, for_each_snoc, Hrun. simpl.
    unfold DurationRepresentation.jump_body, getitem. rewrite Hf, Hd. simpl.
    assert (Hfr : jump_frame_of cfg (Z.of_nat n) = f)
      by (unfold jump_frame_of; by rewrite Hf).
    assert (Hdur : jump_duration_of cfg (Z.of_nat n) = d)
      by (unfold jump_duration_of; by rewrite Hd).
    eexists. split; [reflexivity|].
    intros x. rewrite <- Hfr, <- Hdur.
    pose proof (add_range_spec j (fun _ => true) (jump_frame_of cfg)
                  (jump_duration_of cfg) n) as Hstep.
    simpl in Hstep. rewrite Hstep.
    + split; intros (i & Hi & Hx); exists i; tauto.
    + intros x'. rewrite Hj. split; intros (i & Hi & Hx); exists i; tauto.
Qed.

(** For a conforming configuration [interpret] returns, and its sets are the
    ones the two loops build over all 1000 entries. *)
Lemma duration_interpret_spec (cfg : config) :
  conforms DurationRepresentation.manipulator cfg ->
  exists left' right' running jumping,
    DurationRepresentation.interpret cfg
    = Return (left', right', ∅, running, jumping) /\
    (forall x,
      (x ∈ left' <->
         exists i, 0 <= i < 1000 /\ substring_of "L" (move_of cfg i) = true /\
                   cursor cfg i <= x < cursor cfg i + move_duration_of cfg i) /\
      (x ∈ right' <->
         exists i, 0 <= i < 1000 /\ substring_of "R" (move_of cfg i) = true /\
                   cursor cfg i <= x < cursor cfg i + move_duration_of cfg i) /\
      (x ∈ running <->
         exists i, 0 <= i < 1000 /\ substring_of "B" (move_of cfg i) = true /\
                   cursor cfg i <= x < cursor cfg i + move_duration_of cfg i)) /\
    (forall x,
      x ∈ jumping <->
        exists i, 0 <= i < 1000 /\
          jump_frame_of cfg i <= x < jump_frame_of cfg i + jump_duration_of cfg i).
Proof.
  intros Hc.
  destruct (move_loop cfg 1000) as (l & r & b & Hmoves & Hsets); [lia| |].
  { intros i Hi.
    destruct (duration_conforms cfg i Hc Hi) as ((s & Hs & _) & (d & Hd & _) & _).
    split; [by exists s | by exists d]. }
  destruct (jump_loop cfg 1000) as (j & Hjumps & Hj); [lia| |].
  { intros i Hi.
    destruct (duration_conforms cfg i Hc Hi)
      as (_ & _ & (f & Hf & _) & (d & Hd & _)).
    split; [by exists f | by exists d]. }
  exists l, r, b, j. split; [|done].
  unfold DurationRepresentation.interpret.
  rewrite Hmoves, bind_Return, Hjumps. reflexivity.
Qed.

Section Cursor.
Variable cfg : config.
Hypothesis Hc : conforms DurationRepresentation.manipulator cfg.

Lemma move_duration_bounds (i : Z) :
  0 <= i < 1000 -> 1 <= move_duration_of cfg i <= 60.
Proof.
  intros Hi. destruct (duration_conforms cfg i Hc Hi) as (_ & (d & Hd & Hb) & _).
  unfold move_duration_of. by rewrite Hd.
Qed.

Lemma cursor_next (i : Z) :
  0 <= i < 1000 -> cursor cfg i < cursor cfg (i + 1).
Proof.
  intros Hi. rewrite cursor_succ by lia.
  pose proof (move_duration_bounds i Hi). lia.
Qed.

Lemma cursor_mono (i j : Z) :
  0 <= i <= j -> j <= 1000 -> cursor cfg i <= cursor cfg j.
Proof.
  intros Hij Hj. replace j with (i + (j - i)) by lia.
  assert (0 <= j - i) as Hd by lia. revert Hd.
  assert (i + (j - i) <= 1000) as Hb by lia. revert Hb.
  generalize (j - i). intros k Hb Hk. revert Hb. pattern k.
  apply range_ind; [| |done].
  - intros _. rewrite Z.add_0_r. lia.
  - intros n _ IH Hb.
    rewrite Nat2Z.inj_succ, <- Z.add_1_r, Z.add_assoc.
    pose proof (cursor_next (i + Z.of_nat n)). lia.
Qed.

(** Every frame below the cursor lies in the range of an entry. *)
Lemma cursor_locate (hi x : Z) :
  0 <= hi <= 1000 -> 0 <= x < cursor cfg hi ->
  exists i, 0 <= i < hi /\ cursor cfg i <= x < cursor cfg (i + 1).
Proof.
  intros [Hhi Hle]. revert Hle. pattern hi. apply range_ind; [| |done].
  - intros _. rewrite cursor_0. lia.
  - intros n _ IH Hle Hx.
    destruct (decide (x < cursor cfg (Z.of_nat n))) as [Hlt|Hge].
    + destruct IH as (i & Hi & Hxi); [lia | lia |].
      exists i. split; [lia | done].
    + exists (Z.of_nat n). split; [lia|].
      rewrite Nat2Z.inj_succ, <- Z.add_1_r in Hx. lia.
Qed.

(** The ranges of two different entries share no frame. *)
Lemma cursor_unique (i j x : Z) :
  0 <= i < 1000 -> 0 <= j < 1000 ->
  cursor cfg i <= x < cursor cfg (i + 1) ->
  cursor cfg j <= x < cursor cfg (j + 1) -> i = j.
Proof.
  intros Hi Hj Hxi Hxj.
  destruct (Z.lt_trichotomy i j) as [Hlt|[Heq|Hgt]]; [|done|].
  - pose proof (cursor_mono (i + 1) j). lia.
  - pose proof (cursor_mono (j + 1) i). lia.
Qed.

End Cursor.

(** C8: for every duration-run configuration with values in the declared
    domains, [interpret] returns and the down set it returns is empty. *)
Theorem duration_interpret_down_empty (cfg : config) :
  conforms DurationRepresentation.manipulator cfg ->
  exists left' right' down running jumping,
    DurationRepresentation.interpret cfg
    = Return (left', right', down, running, jumping) /\
    down = ∅.
Proof.
  intros Hc.
  destruct (duration_interpret_spec cfg Hc) as (l & r & b & a & Hrun & _).
  by exists l, r, ∅, b, a.
Qed.

(** C9: for every duration-run configuration, the ranges
    [[cursor i, cursor i + duration i)] of the 1000 move entries follow one
    another from frame 0 and partition [[0, S)], [S] the sum of the
    durations; the left, right and run sets lie within [[0, S)]; whether a
    frame is in one of them is decided by the one entry whose range holds
    the frame; and the jump set is the union of the jump entries' own
    ranges, wherever they lie. *)
Theorem duration_moves_partition (cfg : config) :
  conforms DurationRepresentation.manipulator cfg ->
  exists left' right' running jumping,
    DurationRepresentation.interpret cfg
    = Return (left', right', ∅, running, jumping) /\
    cursor cfg 0 = 0 /\
    (forall i, 0 <= i < 1000 ->
       1 <= move_duration_of cfg i <= 60 /\
       cursor cfg (i + 1) = cursor cfg i + move_duration_of cfg i) /\
    (forall x, 0 <= x < cursor cfg 1000 ->
       exists i, 0 <= i < 1000 /\ cursor cfg i <= x < cursor cfg (i + 1) /\
         forall j, 0 <= j < 1000 ->
           cursor cfg j <= x < cursor cfg (j + 1) -> j = i) /\
    (forall x, x ∈ left' \/ x ∈ right' \/ x ∈ running ->
       0 <= x < cursor cfg 1000) /\
    (forall i x, 0 <= i < 1000 -> cursor cfg i <= x < cursor cfg (i + 1) ->
       (x ∈ left' <-> substring_of "L" (move_of cfg i) = true) /\
       (x ∈ right' <-> substring_of "R" (move_of cfg i) = true) /\
       (x ∈ running <-> substring_of "B" (move_of cfg i) = true)) /\
    (forall x, x ∈ jumping <->
       exists i, 0 <= i < 1000 /\
         jump_frame_of cfg i <= x < jump_frame_of cfg i + jump_duration_of cfg i).
Proof.
  intros Hc.
  destruct (duration_interpret_spec cfg Hc) as (l & r & b & a & Hrun & Hsets & Hj).
  exists l, r, b, a. split; [done|]. split; [apply cursor_0|].
  assert (Hin : forall i x, 0 <= i < 1000 ->
            cursor cfg i <= x < cursor cfg i + move_duration_of cfg i ->
            0 <= x < cursor cfg 1000).
  { intros i x Hi Hx. rewrite <- cursor_succ in Hx by lia.
    pose proof (cursor_mono cfg Hc 0 i). pose proof (cursor_mono cfg Hc (i + 1) 1000).
    rewrite cursor_0 in *. lia. }
  split; [|split; [|split; [|split; [|done]]]].
  - intros i Hi. split; [by apply move_duration_bounds | apply cursor_succ; lia].
  - intros x Hx. destruct (cursor_locate cfg 1000 x) as (i & Hi & Hxi); [lia|done|].
    exists i. split; [done|]. split; [done|].
    intros j Hj' Hxj. by apply (cursor_unique cfg Hc j i x).
  - intros x Hx. destruct (Hsets x) as (Hl & Hr & Hb).
    destruct Hx as [Hx|[Hx|Hx]];
      [apply Hl in Hx | apply Hr in Hx | apply Hb in Hx];
      destruct Hx as (i & Hi & _ & Hx); by apply (Hin i).
  - intros i x Hi Hx. destruct (Hsets x) as (Hl & Hr & Hb).
    rewrite Hl, Hr, Hb.
    assert (Hiff : forall c,
              (exists i', 0 <= i' < 1000 /\ substring_of c (move_of cfg i') = true /\
                 cursor cfg i' <= x < cursor cfg i' + move_duration_of cfg i')
              <-> substring_of c (move_of cfg i) = true).
    { intros c. split.
      - intros (i' & Hi' & Hc' & Hx'). rewrite <- cursor_succ in Hx' by lia.
        by rewrite (cursor_unique cfg Hc i i' x).
      - intros Hc'. exists i. rewrite <- cursor_succ by lia. done. }
    by rewrite !Hiff.
Qed.

(** C3: for a duration-run configuration whose first two move entries are
    [("R", 5)] and [("L", 3)] and whose other 998 move symbols are ["N"],
    [interpret] yields right = {0,1,2,3,4}, left = {5,6,7} and run = {}. *)
Theorem duration_interpret_R5_L3 (cfg : config) :
  conforms DurationRepresentation.manipulator cfg ->
  cfg !! "move0" = Some (VStr "R") ->
  cfg !! "move_duration0" = Some (VInt 5) ->
  cfg !! "move1" = Some (VStr "L") ->
  cfg !! "move_duration1" = Some (VInt 3) ->
  (forall i, 2 <= i < 1000 -> cfg !! ("move" +:+ pretty i) = Some (VStr "N")) ->
  exists jumping,
    DurationRepresentation.interpret cfg
    = Return ({[5; 6; 7]}, {[0; 1; 2; 3; 4]}, ∅, ∅, jumping).
Proof.
  intros Hc Hm0 Hd0 Hm1 Hd1 Hrest.
  destruct (duration_interpret_spec cfg Hc) as (l & r & b & a & Hrun & Hsets & _).
  change "move0" with ("move" +:+ pretty 0) in Hm0.
  change "move1" with ("move" +:+ pretty 1) in Hm1.
  change "move_duration0" with ("move_duration" +:+ pretty 0) in Hd0.
  change "move_duration1" with ("move_duration" +:+ pretty 1) in Hd1.
  assert (M0 : move_of cfg 0 = "R") by (unfold move_of; by rewrite Hm0).
  assert (M1 : move_of cfg 1 = "L") by (unfold move_of; by rewrite Hm1).
  assert (D0 : move_duration_of cfg 0 = 5)
    by (unfold move_duration_of; by rewrite Hd0).
  assert (D1 : move_duration_of cfg 1 = 3)
    by (unfold move_duration_of; by rewrite Hd1).
  assert (MN : forall i, 2 <= i < 1000 -> move_of cfg i = "N").
  { intros i Hi. unfold move_of. by rewrite (Hrest i Hi). }
  assert (C1 : cursor cfg 1 = 5).
  { change 1 with (0 + 1). rewrite cursor_succ, cursor_0 by lia. lia. }
  assert (C2 : cursor cfg 2 = 8).
  { change 2 with (1 + 1). rewrite cursor_succ, C1 by lia. lia. }
  assert (Hcase : forall (c : string) (x : Z),
            (exists i, 0 <= i < 1000 /\ substring_of c (move_of cfg i) = true /\
               cursor cfg i <= x < cursor cfg i + move_duration_of cfg i)
            <-> (substring_of c "R" = true /\ 0 <= x < 5) \/
                (substring_of c "L" = true /\ 5 <= x < 8) \/
                (substring_of c "N" = true /\
                 exists i, 2 <= i < 1000 /\
                   cursor cfg i <= x < cursor cfg i + move_duration_of cfg i)).
  { intros c x. split.
    - intros (i & Hi & Hs & Hx).
      destruct (decide (i = 0)) as [->|H0].
      { left. rewrite M0 in Hs. rewrite cursor_0, D0 in Hx. done. }
      destruct (decide (i = 1)) as [->|H1].
      { right; left. rewrite M1 in Hs. rewrite C1, D1 in Hx. split; [done | lia]. }
      right; right. rewrite MN in Hs by lia. split; [done|].
      exists i. split; [lia | done].
    - intros [[Hs Hx]|[[Hs Hx]|[Hs (i & Hi & Hx)]]].
      + exists 0. rewrite M0, cursor_0, D0. split; [lia | done].
      + exists 1. rewrite M1, C1, D1. split; [lia|]. split; [done | lia].
      + exists i. rewrite MN by lia. split; [lia | done]. }
  assert (Hl : l = {[5; 6; 7]}).
  { apply set_eq. intros x. destruct (Hsets x) as (-> & _). rewrite Hcase.
    change (substring_of "L" "R") with false.
    change (substring_of "L" "L") with true.
    change (substring_of "L" "N") with false.
    rewrite !elem_of_union, !elem_of_singleton.
    split; [intros [[? _]|[[_ ?]|[? _]]]; (done || lia) | intros ?; right; left; lia]. }
  assert (Hr : r = {[0; 1; 2; 3; 4]}).
  { apply set_eq. intros x. destruct (Hsets x) as (_ & -> & _). rewrite Hcase.
    change (substring_of "R" "R") with true.
    change (substring_of "R" "L") with false.
    change (substring_of "R" "N") with false.
    rewrite !elem_of_union, !elem_of_singleton.
    split; [intros [[_ ?]|[[? _]|[? _]]]; (done || lia) | intros ?; left; lia]. }
  assert (Hb : b = ∅).
  { apply set_eq. intros x. destruct (Hsets x) as (_ & _ & ->). rewrite Hcase.
    change (substring_of "B" "R") with false.
    change (substring_of "B" "L") with false.
    change (substring_of "B" "N") with false.
    rewrite elem_of_empty.
    split; [intros [[? _]|[[? _]|[? _]]]; done | done]. }
  exists a. by rewrite Hrun, Hl, Hr, Hb.
Qed.

(** ** The example configurations conform *)

Lemma family_lookup (prefix : string) (val : Z -> value) (n k : Z) :
  0 <= k < n -> family prefix val n !! (prefix +:+ pretty k) = Some (val k).
Proof.
  intros Hk. unfold family. apply elem_of_list_to_map_1.
  - rewrite <- list_fmap_compose.
    apply NoDup_fmap_2; [|apply NoDup_seqZ].
    intros i j Hij. simpl in Hij.
    by apply (inj (String.app prefix)), (inj pretty) in Hij.
  - apply list_elem_of_fmap. exists k. split; [done|]. by apply elem_of_range.
Qed.

Lemma family_lookup_None (prefix : string) (val : Z -> value) (n : Z) (key : string) :
  (forall i : Z, key <> prefix +:+ pretty i) -> family prefix val n !! key = None.
Proof.
  intros Hkey. unfold family. apply not_elem_of_list_to_map_1.
  rewrite <- list_fmap_compose. intros Hin.
  apply list_elem_of_fmap in Hin as (i & Hi & _). by apply (Hkey i).
Qed.

Lemma conforms_bind_intro (cfg : config) (f : Z -> list parameter) (lo hi : Z) :
  (forall i, lo <= i < hi -> Forall (fun p => in_domain p cfg) (f i)) ->
  conforms (range lo hi ≫= f) cfg.
Proof.
  intros H. unfold conforms. rewrite Forall_bind, Forall_forall.
  intros i Hi. apply H. by apply elem_of_range.
Qed.

Lemma alphabet_example_lookup (k : Z) :
  0 <= k < 400 * 60 -> alphabet_example !! pretty k = Some (VInt 3).
Proof. intros Hk. by apply (family_lookup "" (fun _ => VInt 3)). Qed.

Lemma alphabet_example_conforms :
  conforms AlphabetRepresentation.manipulator alphabet_example.
Proof.
  apply conforms_bind_intro. intros i Hi.
  apply Forall_cons_2; [|apply Forall_nil_2].
  exists (VInt 3). split; [by apply alphabet_example_lookup|].
  apply list_elem_of_fmap. exists 3. split; [done|]. apply elem_of_range. lia.
Qed.

(** A decimal numeral does not begin with an underscore. *)
Lemma pretty_N_go_no_underscore (x : N) (s s' : string) :
  s <> String "_" s' -> pretty_N_go x s <> String "_" s'.
Proof.
  revert s. induction (N.lt_wf_0 x) as [x _ IH]. intros s Hs.
  destruct (decide (x = 0%N)) as [->|Hx]; [by rewrite pretty_N_go_0|].
  rewrite pretty_N_go_step by lia.
  apply IH; [apply N.div_lt; lia|].
  unfold pretty_N_char. repeat case_match; discriminate.
Qed.

Lemma pretty_Z_no_underscore (i : Z) (s : string) : pretty i <> String "_" s.
Proof.
  destruct i as [|p|p]; [discriminate| |discriminate].
  change (pretty (Z.pos p)) with (pretty_N_go (N.pos p) "").
  by apply pretty_N_go_no_underscore.
Qed.

Lemma duration_example_lookup (k : Z) :
  0 <= k < 1000 ->
  duration_example !! ("move" +:+ pretty k)
  = Some (VStr (if (k =? 0)%Z then "R" else if (k =? 1)%Z then "L" else "N")) /\
  duration_example !! ("move_duration" +:+ pretty k)
  = Some (VInt (if (k =? 0)%Z then 5 else if (k =? 1)%Z then 3 else 1)) /\
  duration_example !! ("jump_frame" +:+ pretty k) = Some (VInt 24000) /\
  duration_example !! ("jump_duration" +:+ pretty k) = Some (VInt 1).
Proof.
  intros Hk. unfold duration_example. split; [|split; [|split]].
  - do 3 apply lookup_union_Some_l. by rewrite family_lookup.
  - do 2 apply lookup_union_Some_l. rewrite lookup_union_r.
    + by rewrite family_lookup.
    + apply family_lookup_None. intros i Heq.
      apply (inj (String.app "move")) in Heq.
      symmetry in Heq. by apply pretty_Z_no_underscore in Heq.
  - apply lookup_union_Some_l. rewrite lookup_union_r.
    + by rewrite family_lookup.
    + apply lookup_union_None. split; apply family_lookup_None; intros i Heq;
        discriminate Heq.
  - rewrite lookup_union_r.
    + by rewrite family_lookup.
    + rewrite !lookup_union_None. repeat split; apply family_lookup_None;
        intros i Heq; discriminate Heq.
Qed.

Lemma duration_example_conforms :
  conforms DurationRepresentation.manipulator duration_example.
Proof.
  unfold conforms, DurationRepresentation.manipulator. apply Forall_app. split.
  - apply conforms_bind_intro. intros i Hi.
    destruct (duration_example_lookup i Hi) as (Hm & Hd & _).
    apply Forall_cons_2; [|apply Forall_cons_2; [|apply Forall_nil_2]].
    + eexists. split; [exact Hm|]. unfold DurationRepresentation.moves.
      repeat case_match; repeat (first [apply list_elem_of_here | apply list_elem_of_further]).
    + eexists. split; [exact Hd|]. repeat case_match; lia.
  - apply conforms_bind_intro. intros i Hi.
    destruct (duration_example_lookup i Hi) as (_ & _ & Hf & Hd).
    apply Forall_cons_2; [|apply Forall_cons_2; [|apply Forall_nil_2]].
    + eexists. split; [exact Hf | lia].
    + eexists. split; [exact Hd | lia].
Qed.

(** ** The theorems at the example configurations *)

Lemma alphabet_interpret_bits_example :
  conforms AlphabetRepresentation.manipulator alphabet_example /\
  exists left' right' running jumping,
    AlphabetRepresentation.interpret alphabet_example
    = Return (left', right', ∅, running, jumping) /\
    forall k bits, 0 <= k < 400 * 60 ->
      alphabet_example !! pretty k = Some (VInt bits) ->
      (k ∈ left' <-> Z.testbit bits 0 = true) /\
      (k ∈ right' <-> Z.testbit bits 1 = true) /\
      (k ∈ running <-> Z.testbit bits 2 = true) /\
      (k ∈ jumping <-> Z.testbit bits 3 = true) /\
      (bits = 3 -> k ∈ left' /\ k ∈ right').
Proof.
  split; [exact alphabet_example_conforms|].
  exact (alphabet_interpret_bits alphabet_example alphabet_example_conforms).
Defined.

Lemma duration_interpret_down_empty_example :
  conforms DurationRepresentation.manipulator duration_example /\
  exists left' right' down running jumping,
    DurationRepresentation.interpret duration_example
    = Return (left', right', down, running, jumping) /\
    down = ∅.
Proof.
  split; [exact duration_example_conforms|].
  exact (duration_interpret_down_empty duration_example duration_example_conforms).
Defined.

Lemma duration_moves_partition_example :
  conforms DurationRepresentation.manipulator duration_example /\
  exists left' right' running jumping,
    DurationRepresentation.interpret duration_example
    = Return (left', right', ∅, running, jumping) /\
    cursor duration_example 0 = 0 /\
    (forall i, 0 <= i < 1000 ->
       1 <= move_duration_of duration_example i <= 60 /\
       cursor duration_example (i + 1)
       = cursor duration_example i + move_duration_of duration_example i) /\
    (forall x, 0 <= x < cursor duration_example 1000 ->
       exists i, 0 <= i < 1000 /\
         cursor duration_example i <= x < cursor duration_example (i + 1) /\
         forall j, 0 <= j < 1000 ->
           cursor duration_example j <= x < cursor duration_example (j + 1) ->
           j = i) /\
    (forall x, x ∈ left' \/ x ∈ right' \/ x ∈ running ->
       0 <= x < cursor duration_example 1000) /\
    (forall i x, 0 <= i < 1000 ->
       cursor duration_example i <= x < cursor duration_example (i + 1) ->
       (x ∈ left' <-> substring_of "L" (move_of duration_example i) = true) /\
       (x ∈ right' <-> substring_of "R" (move_of duration_example i) = true) /\
       (x ∈ running <-> substring_of "B" (move_of duration_example i) = true)) /\
    (forall x, x ∈ jumping <->
       exists i, 0 <= i < 1000 /\
         jump_frame_of duration_example i <= x
         < jump_frame_of duration_example i + jump_duration_of duration_example i).
Proof.
  split; [exact duration_example_conforms|].
  exact (duration_moves_partition duration_example duration_example_conforms).
Defined.

Lemma duration_interpret_R5_L3_example :
  conforms DurationRepresentation.manipulator duration_example /\
  duration_example !! "move0" = Some (VStr "R") /\
  duration_example !! "move_duration0" = Some (VInt 5) /\
  duration_example !! "move1" = Some (VStr "L") /\
  duration_example !! "move_duration1" = Some (VInt 3) /\
  (forall i, 2 <= i < 1000 ->
     duration_example !! ("move" +:+ pretty i) = Some (VStr "N")) /\
  exists jumping,
    DurationRepresentation.interpret duration_example
    = Return ({[5; 6; 7]}, {[0; 1; 2; 3; 4]}, ∅, ∅, jumping).
Proof.
  assert (H0 : 0 <= 0 < 1000) by lia. assert (H1 : 0 <= 1 < 1000) by lia.
  pose proof (duration_example_lookup 0 H0) as (Hm0 & Hd0 & _).
  pose proof (duration_example_lookup 1 H1) as (Hm1 & Hd1 & _).
  assert (Hrest : forall i, 2 <= i < 1000 ->
            duration_example !! ("move" +:+ pretty i) = Some (VStr "N")).
  { intros i Hi. destruct (duration_example_lookup i) as (Hm & _); [lia|].
    rewrite Hm. destruct (Z.eqb_spec i 0); [lia|]. destruct (Z.eqb_spec i 1); [lia|].
    done. }
  split; [exact duration_example_conforms|].
  split; [exact Hm0|]. split; [exact Hd0|]. split; [exact Hm1|].
  split; [exact Hd1|]. split; [exact Hrest|].
  exact (duration_interpret_R5_L3 duration_example duration_example_conforms
           Hm0 Hd0 Hm1 Hd1 Hrest).
Defined.

(** On the example the moves end at frame 1006, yet the jump set holds
    frame 24000: the jump entries are placed by their own frame. *)
Lemma duration_example_jump_beyond_moves :
  cursor duration_example 1000 = 1006 /\
  exists left' right' running jumping,
    DurationRepresentation.interpret duration_example
    = Return (left', right', ∅, running, jumping) /\ 24000 ∈ jumping.
Proof.
  split.
  - assert (H : forall hi, 0 <= hi -> 2 <= hi <= 1000 ->
              cursor duration_example hi = hi + 6).
    { intros hi Hhi. pattern hi. apply range_ind; [lia | | done].
      intros n _ IH Hn. rewrite cursor_of_nat_S.
      destruct (duration_example_lookup (Z.of_nat n)) as (_ & Hd & _); [lia|].
      unfold move_duration_of at 1. rewrite Hd.
      destruct (decide (Z.of_nat n = 0)) as [E0|N0].
      { lia. }
      destruct (decide (Z.of_nat n = 1)) as [E1|N1].
      { rewrite E1. change (cursor duration_example 1)
          with (0 + move_duration_of duration_example 0).
        destruct (duration_example_lookup 0) as (_ & Hd0 & _); [lia|].
        unfold move_duration_of. rewrite Hd0. simpl. lia. }
      rewrite IH by lia.
      destruct (Z.eqb_spec (Z.of_nat n) 0); [lia|].
      destruct (Z.eqb_spec (Z.of_nat n) 1); [lia|]. lia. }
    rewrite H; lia.
  - destruct (duration_interpret_spec duration_example duration_example_conforms)
      as (l & r & b & a & Hrun & _ & Hj).
    exists l, r, b, a. split; [done|]. apply Hj. exists 0.
    destruct (duration_example_lookup 0) as (_ & _ & Hf & Hd); [lia|].
    unfold jump_frame_of, jump_duration_of. rewrite Hf, Hd. lia.
Qed.

(** ** The harness *)

(** [run_movie] stops at [f.write]: the movie [fm2_smb] builds is a [str],
    and the temporary file takes bytes only.  No child process is
    launched and nothing is printed. *)
Lemma run_movie_str (os : Subprocess) (fm2 : string) (args : Args) :
  run_movie os (Str fm2) args = ([], Raise TypeError).
Proof. reflexivity. Qed.

(** C2, as the code behaves: for every configuration that decodes, and
    whatever the emulator would print (an outcome line or none),
    [compile] raises [TypeError] out of [run_movie], which the handler for
    [ValueError] does not catch; it prints nothing and returns no result
    at all, so not the result with state ERROR and score +infinity
    either. *)
Theorem compile_raises_TypeError (os : Subprocess) (args : Args) (cfg : config)
    (id : Z) (left' right' down running jumping : gset Z) :
  interpret (representation args) cfg
  = Return (left', right', down, running, jumping) ->
  SMBMI.compile os args cfg id = ([], Raise TypeError) /\
  (forall out res, SMBMI.compile os args cfg id <> (out, Return res)) /\
  forall out, SMBMI.compile os args cfg id
              <> (out, Return {| state := "ERROR"; time := inf |}).
Proof.
  intros Hdecode.
  assert (H : SMBMI.compile os args cfg id = ([], Raise TypeError)).
  { unfold SMBMI.compile. rewrite Hdecode. by rewrite run_movie_str. }
  split; [exact H|]. split; [intros out res|intros out]; rewrite H; congruence.
Qed.

Lemma compile_raises_TypeError_example :
  let args := {| headful := false; xvfb_delay := 0; fceux_path := "fceux";
                 representation := duration_representation;
                 fitness_function := Progress |} in
  SMBMI.compile crashing args duration_example 0 = ([], Raise TypeError) /\
  (forall out res,
     SMBMI.compile crashing args duration_example 0 <> (out, Return res)) /\
  forall out, SMBMI.compile crashing args duration_example 0
              <> (out, Return {| state := "ERROR"; time := inf |}).
Proof.
  intros args.
  destruct (duration_interpret_spec duration_example duration_example_conforms)
    as (l & r & b & a & Hdecode & _).
  exact (compile_raises_TypeError crashing args duration_example 0 l r ∅ b a Hdecode).
Defined.

(** ** Floats *)

Lemma digits2_pos_log2 (p : positive) :
  Z.pos (digits2_pos p) = Z.log2 (Z.pos p) + 1.
Proof.
  assert (H : forall q, digits2_pos q = Pos.size q).
  { induction q as [q IH|q IH|]; simpl; by rewrite ?IH. }
  rewrite H. destruct p as [p|p|]; simpl; lia.
Qed.

Lemma digits2_pos_bound (p : positive) (n : Z) :
  0 < n -> Z.pos p < 2 ^ n -> Z.pos (digits2_pos p) <= n.
Proof.
  intros Hn Hp. rewrite digits2_pos_log2.
  apply Z.log2_lt_pow2 in Hp; lia.
Qed.

Lemma iter_xO_spec (p k : positive) :
  Z.pos (Pos.iter xO p k) = Z.pos p * 2 ^ Z.pos k /\
  Z.pos (digits2_pos (Pos.iter xO p k)) = Z.pos (digits2_pos p) + Z.pos k.
Proof.
  induction k as [|k [IH1 IH2]] using Pos.peano_ind.
  - simpl. lia.
  - rewrite Pos.iter_succ. simpl digits2_pos.
    rewrite Pos2Z.inj_xO, Pos2Z.inj_succ, IH1, Z.pow_succ_r by lia.
    rewrite Pos2Z.inj_succ, IH2. lia.
Qed.

(** Converting an integer below 2^53 in size is exact. *)
Lemma binary_round_exact (sx : bool) (p : positive) :
  Z.pos p < 2 ^ 53 ->
  exists m e,
    binary_round prec emax sx p 0 = S754_finite sx m e /\
    -52 <= e <= 0 /\ Z.pos m = Z.pos p * 2 ^ (- e).
Proof.
  intros Hp. pose proof (digits2_pos_bound p 53 ltac:(lia) Hp) as Hd.
  assert (0 < Z.pos (digits2_pos p)) as Hd0 by lia.
  unfold binary_round.
  assert (Hfexp : fexp prec emax (Z.pos (digits2_pos p) + 0)
                  = Z.pos (digits2_pos p) - 53).
  { unfold fexp, emin, prec, emax. lia. }
  rewrite Hfexp. unfold shl_align.
  assert (Haux : forall (mz : positive) (ez : Z),
            Z.pos (digits2_pos mz) = 53 -> -52 <= ez <= 0 ->
            binary_round_aux prec emax sx (Z.pos mz) ez loc_Exact
            = S754_finite sx mz ez).
  { intros mz ez Hmz Hez. unfold binary_round_aux, shr_fexp.
    assert (Hf : fexp prec emax (Zdigits2 (Z.pos mz) + ez) - ez = 0).
    { unfold Zdigits2, fexp, emin, prec, emax. rewrite Hmz. lia. }
    rewrite Hf. cbn [shr shr_record_of_loc shr_m loc_of_shr_record round_nearest_even].
    rewrite Hf. cbn [shr shr_record_of_loc shr_m].
    replace (ez <=? emax - prec)%Z with true; [done|].
    symmetry. apply Z.leb_le. unfold emax, prec. lia. }
  destruct (Z.pos (digits2_pos p) - 53 - 0) as [|q|q] eqn:Hq; [| lia |].
  - exists p, 0. rewrite Haux by lia. split; [done|]. split; [lia|].
    simpl. lia.
  - destruct (iter_xO_spec p q) as [Hv Hdig].
    exists (Pos.iter xO p q), (Z.pos (digits2_pos p) - 53).
    rewrite Haux by lia. split; [done|]. split; [lia|].
    rewrite Hv. f_equal. f_equal. lia.
Qed.

Lemma py_float_exact (z : Z) :
  Z.abs z < 2 ^ 53 -> exists f, py_float z = Return f /\ denotes f z.
Proof.
  intros Hz. unfold py_float, binary_normalize.
  destruct z as [|p|p].
  - by exists (S754_zero false).
  - destruct (binary_round_exact false p) as (m & e & -> & He & Hm); [lia|].
    exists (S754_finite false m e). split; [done|]. unfold denotes.
    replace (Z.max e 0) with 0 by lia. replace (Z.max (- e) 0) with (- e) by lia.
    rewrite Hm. lia.
  - destruct (binary_round_exact true p) as (m & e & -> & He & Hm); [lia|].
    exists (S754_finite true m e). split; [done|]. unfold denotes.
    replace (Z.max e 0) with 0 by lia. replace (Z.max (- e) 0) with (- e) by lia.
    rewrite <- !Pos2Z.opp_pos, Hm. lia.
Qed.

Lemma denotes_fneg (f : float) (z : Z) : denotes f z -> denotes (fneg f) (- z).
Proof.
  destruct f as [s|s| |s m e]; simpl; try done; [lia|].
  destruct s; simpl; rewrite <- !Pos2Z.opp_pos; lia.
Qed.

Lemma py_float_nonzero (z : Z) (f : float) :
  z <> 0 -> denotes f z -> forall x, fdiv x f = Return (SFdiv prec emax x f).
Proof. intros Hz Hf x. destruct f; simpl in *; done. Qed.

(** ** The fitness functions *)

(** C6, as the code has it: [Progress] is [-x_pos] whatever the other
    arguments, so
    [Progress(False, 100, 50)] is [-100.0]; [ProgressPlusTimeRemaining] is
    [-(x_pos + 24000 - elapsed_frames)] on a win, so [-(3161 + 24000 - 1200)]
    at [(True, 3161, 1200)], and [-x_pos] otherwise;
    [ProgressTimesAverageSpeed] is the product of [-x_pos] and the quotient
    of [x_pos] by [elapsed_frames], each rounded to a double, when
    [elapsed_frames] is positive, so [-400.0] at [(False, 200, 100)].  The
    integers are those a double holds exactly (below 2^53 in size). *)
Theorem fitness_functions (won : bool) (x_pos elapsed_frames : Z) :
  Progress won x_pos elapsed_frames = Progress false x_pos 0 /\
  (Z.abs x_pos < 2 ^ 53 ->
     returns_int (Progress won x_pos elapsed_frames) (- x_pos)) /\
  returns_int (Progress false 100 50) (- 100) /\
  (Z.abs (x_pos + 24000 - elapsed_frames) < 2 ^ 53 ->
     returns_int (ProgressPlusTimeRemaining true x_pos elapsed_frames)
       (- (x_pos + 24000 - elapsed_frames))) /\
  returns_int (ProgressPlusTimeRemaining true 3161 1200) (- (3161 + 24000 - 1200)) /\
  ProgressPlusTimeRemaining false x_pos elapsed_frames
  = Progress false x_pos elapsed_frames /\
  (Z.abs x_pos < 2 ^ 53 ->
     returns_int (ProgressPlusTimeRemaining false x_pos elapsed_frames) (- x_pos)) /\
  (Z.abs x_pos < 2 ^ 53 -> 0 < elapsed_frames < 2 ^ 53 ->
     exists x frames neg_x,
       denotes x x_pos /\ denotes frames elapsed_frames /\
       denotes neg_x (- x_pos) /\
       ProgressTimesAverageSpeed won x_pos elapsed_frames
       = Return (fmul neg_x (SFdiv prec emax x frames))) /\
  returns_int (ProgressTimesAverageSpeed false 200 100) (- 400).
Proof.
  assert (Hneg : forall z, Z.abs z < 2 ^ 53 ->
            returns_int (x ← py_float z; Return (fneg x)) (- z)).
  { intros z Hz. destruct (py_float_exact z Hz) as (f & Hf & Hd).
    exists (fneg f). rewrite Hf. split; [done | by apply denotes_fneg]. }
  split; [done|]. split; [apply Hneg|].
  split; [eexists; split; [vm_compute; reflexivity | vm_compute; reflexivity]|].
  split; [apply Hneg|].
  split; [eexists; split; [vm_compute; reflexivity | vm_compute; reflexivity]|].
  split; [done|]. split; [apply Hneg|]. split.
  - intros Hx Hf.
    destruct (py_float_exact x_pos Hx) as (x & Ex & Dx).
    destruct (py_float_exact elapsed_frames) as (f & Ef & Df); [lia|].
    destruct (py_float_exact (- x_pos)) as (n & En & Dn); [lia|].
    exists x, f, n. repeat (split; [done|]).
    unfold ProgressTimesAverageSpeed. rewrite Ex, Ef. cbn [mbind result_bind].
    rewrite (py_float_nonzero elapsed_frames f) by (lia || done).
    cbn [mbind result_bind]. by rewrite En.
  - eexists; split; [vm_compute; reflexivity | vm_compute; reflexivity].
Qed.

(** Beyond 2^53 a double no longer holds every integer:
    [Progress(False, 2**53 + 1, 50)] is [-9007199254740992.0], which is
    [-(2**53)], not [-(2**53 + 1)]. *)
Lemma Progress_rounds_beyond_2_53 :
  ~ returns_int (Progress false (2 ^ 53 + 1) 50) (- (2 ^ 53 + 1)).
Proof.
  intros (f & Hf & Hd). vm_compute in Hf. injection Hf as <-.
  vm_compute in Hd. discriminate Hd.
Qed.

Lemma fitness_functions_example :
  returns_int (Progress true 3161 1200) (- 3161) /\
  returns_int (ProgressPlusTimeRemaining true 3161 1200) (- (3161 + 24000 - 1200)) /\
  returns_int (ProgressPlusTimeRemaining false 3161 1200) (- 3161) /\
  exists x frames neg_x,
    denotes x 3161 /\ denotes frames 1200 /\ denotes neg_x (- 3161) /\
    ProgressTimesAverageSpeed true 3161 1200
    = Return (fmul neg_x (SFdiv prec emax x frames)).
Proof.
  destruct (fitness_functions true 3161 1200)
    as (_ & H1 & _ & H2 & _ & _ & H3 & H4 & _).
  split; [apply H1; by vm_compute|].
  split; [apply H2; by vm_compute|].
  split; [apply H3; by vm_compute|].
  apply H4; by vm_compute.
Defined.

(** * Further properties *)

(** ** The naive representation *)

(** What the loop of [NaiveRepresentation.interpret] has built after the
    frames below [hi]; the values need not be booleans. *)
Lemma naive_loop (cfg : config) (hi : Z) :
  0 <= hi ->
  (forall k letter, 0 <= k < hi -> letter ∈ ["L"; "R"; "D"; "B"; "A"] ->
     is_Some (cfg !! (letter +:+ pretty k))) ->
  exists left' right' down running jumping,
    for_each (range 0 hi) (NaiveRepresentation.body cfg) (∅, ∅, ∅, ∅, ∅)
    = Return (left', right', down, running, jumping) /\
    forall k,
      (k ∈ left' <-> 0 <= k < hi /\ naive_flag cfg "L" k = true) /\
      (k ∈ right' <-> 0 <= k < hi /\ naive_flag cfg "R" k = true) /\
      (k ∈ down <-> 0 <= k < hi /\ naive_flag cfg "D" k = true) /\
      (k ∈ running <-> 0 <= k < hi /\ naive_flag cfg "B" k = true) /\
      (k ∈ jumping <-> 0 <= k < hi /\ naive_flag cfg "A" k = true).
Proof.
  intros Hhi. pattern hi. apply range_ind; [| |done].
  - intros _. exists ∅, ∅, ∅, ∅, ∅. split; [done|].
    intros k. rewrite !elem_of_empty. lia.
  - intros n Hn IH Hcfg.
    destruct IH as (l & r & d & b & a & Hrun & Hsets).
    { intros k letter Hk. apply Hcfg. lia. }
    assert (Hkey : forall letter, letter ∈ ["L"; "R"; "D"; "B"; "A"] ->
              exists v, cfg !! (letter +:+ pretty (Z.of_nat n)) = Some v /\
                        truthy v = naive_flag cfg letter (Z.of_nat n)).
    { intros letter Hl. destruct (Hcfg (Z.of_nat n) letter) as [v Hv]; [lia|done|].
      exists v. split; [done|]. unfold naive_flag. by rewrite Hv. }
    destruct (Hkey "L") as (vl & Hvl & Fl); [in_list|].
    destruct (Hkey "R") as (vr & Hvr & Fr); [in_list|].
    destruct (Hkey "D") as (vd & Hvd & Fd); [in_list|].
    destruct (Hkey "B") as (vb & Hvb & Fb); [in_list|].
    destruct (Hkey "A") as (va & Hva & Fa); [in_list|].
    rewrite range_snoc, for_each_snoc, Hrun, bind_Return.
    unfold NaiveRepresentation.body, getitem.
    rewrite Hvl, Hvr, Hvd, Hvb, Hva. cbn [mbind result_bind].
    rewrite Fl, Fr, Fd, Fb, Fa.
    eexists _, _, _, _, _. split; [reflexivity|].
    intros k. split; [|split; [|split; [|split]]].
    all: apply (add_frame_spec _ (naive_flag cfg _) n); intros k';
      destruct (Hsets k') as (H0 & H1 & H2 & H3 & H4); assumption.
Qed.

Lemma naive_conforms (cfg : config) (k : Z) (letter : string) :
  conforms NaiveRepresentation.manipulator cfg -> 0 <= k < 12000 ->
  letter ∈ ["L"; "R"; "D"; "B"; "A"] ->
  exists b, cfg !! (letter +:+ pretty k) = Some (VBool b).
Proof.
  intros Hc Hk Hl.
  apply (conforms_bind cfg _ 0 12000 k (BooleanParameter (letter +:+ pretty k)) Hc Hk).
  repeat (apply elem_of_cons in Hl as [->|Hl];
          [repeat (first [apply list_elem_of_here | apply list_elem_of_further])|]).
  by apply elem_of_nil in Hl.
Qed.

(** X1: for every naive configuration [interpret] returns, and frame [k] is
    in the left, right, down, run or jump set exactly when [k] is a frame of
    the horizon and the configuration sets [L], [R], [D], [B] or [A] of
    frame [k] to [True]. *)
Theorem naive_interpret_decodes (cfg : config) :
  conforms NaiveRepresentation.manipulator cfg ->
  exists left' right' down running jumping,
    NaiveRepresentation.interpret cfg
    = Return (left', right', down, running, jumping) /\
    forall k,
      (k ∈ left' <->
         0 <= k < 12000 /\ cfg !! ("L" +:+ pretty k) = Some (VBool true)) /\
      (k ∈ right' <->
         0 <= k < 12000 /\ cfg !! ("R" +:+ pretty k) = Some (VBool true)) /\
      (k ∈ down <->
         0 <= k < 12000 /\ cfg !! ("D" +:+ pretty k) = Some (VBool true)) /\
      (k ∈ running <->
         0 <= k < 12000 /\ cfg !! ("B" +:+ pretty k) = Some (VBool true)) /\
      (k ∈ jumping <->
         0 <= k < 12000 /\ cfg !! ("A" +:+ pretty k) = Some (VBool true)).
Proof.
  intros Hc.
  destruct (naive_loop cfg 12000) as (l & r & d & b & a & Hrun & Hsets); [lia| |].
  { intros k letter Hk Hl. destruct (naive_conforms cfg k letter Hc Hk Hl) as [v Hv].
    by exists (VBool v). }
  exists l, r, d, b, a. split; [exact Hrun|].
  assert (Hflag : forall letter k, letter ∈ ["L"; "R"; "D"; "B"; "A"] ->
            (0 <= k < 12000 /\ naive_flag cfg letter k = true) <->
            (0 <= k < 12000 /\ cfg !! (letter +:+ pretty k) = Some (VBool true))).
  { intros letter k Hl. split; intros [Hk H]; (split; [done|]).
    - destruct (naive_conforms cfg k letter Hc Hk Hl) as [v Hv].
      unfold naive_flag in H. rewrite Hv in H. simpl in H. by subst v.
    - unfold naive_flag. by rewrite H. }
  intros k. destruct (Hsets k) as (Hl & Hr & Hd & Hb & Ha).
  rewrite Hl, Hr, Hd, Hb, Ha.
  rewrite !Hflag by in_list. done.
Qed.

Lemma naive_example_lookup (k : Z) :
  0 <= k < 12000 ->
  naive_example !! ("L" +:+ pretty k) = Some (VBool false) /\
  naive_example !! ("R" +:+ pretty k) = Some (VBool true) /\
  naive_example !! ("D" +:+ pretty k) = Some (VBool false) /\
  naive_example !! ("B" +:+ pretty k) = Some (VBool false) /\
  naive_example !! ("A" +:+ pretty k) = Some (VBool (Z.even k)).
Proof.
  intros Hk. unfold naive_example.
  assert (Hother : forall (a b : string) (val : Z -> value),
            get 0 a <> get 0 b -> String.length a = 1%nat -> String.length b = 1%nat ->
            family a val 12000 !! (b +:+ pretty k) = None).
  { intros a b val Hab Ha Hb. apply family_lookup_None. intros i Heq.
    destruct a as [|ca [|? ?]]; try done. destruct b as [|cb [|? ?]]; try done.
    simpl in Hab. inversion Heq. congruence. }
  split; [|split; [|split; [|split]]].
  - do 4 apply lookup_union_Some_l. rewrite family_lookup; [reflexivity | exact Hk].
  - do 3 apply lookup_union_Some_l. rewrite lookup_union_r.
    + rewrite family_lookup; [reflexivity | exact Hk].
    + by apply Hother.
  - do 2 apply lookup_union_Some_l. rewrite lookup_union_r.
    + rewrite family_lookup; [reflexivity | exact Hk].
    + apply lookup_union_None_2; by apply Hother.
  - apply lookup_union_Some_l. rewrite lookup_union_r.
    + rewrite family_lookup; [reflexivity | exact Hk].
    + apply lookup_union_None_2; [apply lookup_union_None_2|]; by apply Hother.
  - rewrite lookup_union_r.
    + rewrite family_lookup; [reflexivity | exact Hk].
    + apply lookup_union_None_2;
        [apply lookup_union_None_2; [apply lookup_union_None_2|]|];
        by apply Hother.
Qed.

Lemma naive_example_conforms :
  conforms NaiveRepresentation.manipulator naive_example.
Proof.
  apply conforms_bind_intro. intros i Hi.
  destruct (naive_example_lookup i Hi) as (Hl & Hr & Hd & Hb & Ha).
  apply Forall_cons_2; [eexists; exact Hl|].
  apply Forall_cons_2; [eexists; exact Hr|].
  apply Forall_cons_2; [eexists; exact Hd|].
  apply Forall_cons_2; [eexists; exact Hb|].
  apply Forall_cons_2; [eexists; exact Ha|].
  apply Forall_nil_2.
Qed.

Lemma naive_interpret_decodes_example :
  conforms NaiveRepresentation.manipulator naive_example /\
  exists left' right' down running jumping,
    NaiveRepresentation.interpret naive_example
    = Return (left', right', down, running, jumping) /\
    forall k,
      (k ∈ left' <->
         0 <= k < 12000 /\ naive_example !! ("L" +:+ pretty k) = Some (VBool true)) /\
      (k ∈ right' <->
         0 <= k < 12000 /\ naive_example !! ("R" +:+ pretty k) = Some (VBool true)) /\
      (k ∈ down <->
         0 <= k < 12000 /\ naive_example !! ("D" +:+ pretty k) = Some (VBool true)) /\
      (k ∈ running <->
         0 <= k < 12000 /\ naive_example !! ("B" +:+ pretty k) = Some (VBool true)) /\
      (k ∈ jumping <->
         0 <= k < 12000 /\ naive_example !! ("A" +:+ pretty k) = Some (VBool true)).
Proof.
  split; [exact naive_example_conforms|].
  exact (naive_interpret_decodes naive_example naive_example_conforms).
Defined.

(** ** Frames outside the horizon *)

(** X2: for every bitmask-alphabet configuration the four sets [interpret]
    fills hold frames of the horizon only, and a frame whose value is 0 is in
    none of them. *)
Theorem alphabet_sets_within_horizon (cfg : config) :
  conforms AlphabetRepresentation.manipulator cfg ->
  exists left' right' down running jumping,
    AlphabetRepresentation.interpret cfg
    = Return (left', right', down, running, jumping) /\
    (forall k, k ∈ left' ∪ right' ∪ down ∪ running ∪ jumping ->
       0 <= k < 400 * 60) /\
    (forall k, cfg !! pretty k = Some (VInt 0) ->
       k ∉ left' ∪ right' ∪ down ∪ running ∪ jumping).
Proof.
  intros Hc.
  destruct (alphabet_loop cfg (400 * 60)) as (l & r & b & a & Hrun & Hsets);
    [lia| |].
  { intros k Hk. destruct (alphabet_conforms cfg k Hc Hk) as (z & Hz & _).
    by exists z. }
  exists l, r, ∅, b, a. split.
  { unfold AlphabetRepresentation.interpret. by rewrite Hrun. }
  split.
  - intros k. rewrite !elem_of_union, elem_of_empty.
    destruct (Hsets k) as (Hl & Hr & Hb & Ha).
    rewrite Hl, Hr, Hb, Ha. tauto.
  - intros k Hk. rewrite !elem_of_union, elem_of_empty.
    destruct (Hsets k) as (Hl & Hr & Hb & Ha).
    rewrite Hl, Hr, Hb, Ha. unfold alphabet_bit. rewrite Hk.
    rewrite !Z.bits_0. intros H. decompose [and or] H; congruence.
Qed.

Lemma alphabet_sets_within_horizon_example :
  conforms AlphabetRepresentation.manipulator alphabet_example /\
  exists left' right' down running jumping,
    AlphabetRepresentation.interpret alphabet_example
    = Return (left', right', down, running, jumping) /\
    (forall k, k ∈ left' ∪ right' ∪ down ∪ running ∪ jumping ->
       0 <= k < 400 * 60) /\
    (forall k, alphabet_example !! pretty k = Some (VInt 0) ->
       k ∉ left' ∪ right' ∪ down ∪ running ∪ jumping).
Proof.
  split; [exact alphabet_example_conforms|].
  exact (alphabet_sets_within_horizon alphabet_example alphabet_example_conforms).
Defined.

(** ** Configurations that [interpret] rejects *)








(** ** The largest frame of a set *)

(** X9: for the empty set [maxd] returns the default; for any other set it
    returns the greatest member, whatever the default and whatever the
    order in which the set hands out its members; so the default comes
    back only when the set is empty or the default is itself the greatest
    member. *)
Theorem maxd_greatest (iterable : gset Z) (default : Z) :
  (iterable = ∅ -> maxd iterable default = default) /\
  (iterable <> ∅ ->
     maxd iterable default ∈ iterable /\
     (forall y, y ∈ iterable -> y <= maxd iterable default) /\
     forall default', maxd iterable default' = maxd iterable default) /\
  (maxd iterable default = default <->
     iterable = ∅ \/
     (default ∈ iterable /\ forall y, y ∈ iterable -> y <= default)).
Proof.
  split; [|split].
  - intros ->. apply maxd_empty.
  - intros Hne. destruct (maxd_nonempty iterable default Hne) as [Hin Hub].
    split; [done|]. split; [done|]. intros d'.
    destruct (maxd_nonempty iterable d' Hne) as [Hin' Hub'].
    specialize (Hub _ Hin'). specialize (Hub' _ Hin). lia.
  - destruct (decide (iterable = ∅)) as [->|Hne].
    + rewrite maxd_empty. split; [by left | done].
    + destruct (maxd_nonempty iterable default Hne) as [Hin Hub]. split.
      * intros Heq. right. by rewrite Heq in Hin, Hub.
      * intros [HE|[Hd Hle]]; [done|].
        specialize (Hub _ Hd). specialize (Hle _ Hin). lia.
Qed.

(** ** The movie determines the presses *)

Lemma join_nl_inj (rows rows' : list string) :
  Forall no_newline rows -> Forall no_newline rows' ->
  length rows = length rows' ->
  join nl rows = join nl rows' -> rows = rows'.
Proof.
  intros Hr Hr' Hlen Heq.
  destruct rows as [|r rows].
  - destruct rows'; [done | discriminate Hlen].
  - destruct rows' as [|r' rows']; [discriminate Hlen|].
    rewrite <- (split_lines_join (r :: rows)) by done.
    rewrite <- (split_lines_join (r' :: rows')) by done.
    by rewrite Heq.
Qed.

(** Two rows are the same text only when they were built from the same
    presses. *)
Lemma fm2_line_inj (up down left right a b start select reset
                    up' down' left' right' a' b' start' select' reset' : bool) :
  fm2_line up down left right a b start select reset
  = fm2_line up' down' left' right' a' b' start' select' reset' ->
  down = down' /\ left = left' /\ right = right' /\ a = a' /\ b = b'.
Proof.
  intros Heq.
  destruct (fm2_line_buttons up down left right a b start select reset)
    as (HR & HL & HD & _ & _ & _ & HB & HA).
  destruct (fm2_line_buttons up' down' left' right' a' b' start' select' reset')
    as (HR' & HL' & HD' & _ & _ & _ & HB' & HA').
  rewrite Heq in HR, HL, HD, HB, HA.
  rewrite HR' in HR. rewrite HL' in HL. rewrite HD' in HD.
  rewrite HB' in HB. rewrite HA' in HA.
  repeat split.
  - destruct down, down'; (done || discriminate HD).
  - destruct left, left'; (done || discriminate HL).
  - destruct right, right'; (done || discriminate HR).
  - destruct a, a'; (done || discriminate HA).
  - destruct b, b'; (done || discriminate HB).
Qed.

Lemma mem_eq_iff (i : Z) (s s' : gset Z) : mem i s = mem i s' <-> (i ∈ s <-> i ∈ s').
Proof.
  split.
  - intros H. by rewrite <- !mem_true, H.
  - intros H. unfold mem. by apply bool_decide_ext.
Qed.

(** X10: [fm2_smb] loses nothing inside its frame bounds: two calls with the
    same options and bounds give the same text exactly when the five sets
    agree on every frame of the bounds (less the padding offset 196, when
    padding is on). *)
Theorem fm2_smb_lossless (left right down b a left' right' down' b' a' : gset Z)
    (header padding : bool) (minFrame maxFrame : Z) :
  fm2_smb left right down b a header padding (Some minFrame) (Some maxFrame)
  = fm2_smb left' right' down' b' a' header padding (Some minFrame) (Some maxFrame)
  <->
  forall i, minFrame <= i < maxFrame ->
    let f := if padding then i - 196 else i in
    (f ∈ left <-> f ∈ left') /\ (f ∈ right <-> f ∈ right') /\
    (f ∈ down <-> f ∈ down') /\ (f ∈ b <-> f ∈ b') /\ (f ∈ a <-> f ∈ a').
Proof.
  assert (Hlen : forall l r d rn j,
            length (fm2_smb_rows l r d rn j false padding (Some minFrame) (Some maxFrame))
            = Z.to_nat (maxFrame - minFrame)).
  { intros. unfold fm2_smb_rows. apply fm2_lines_length. }
  split.
  - intros Heq.
    assert (Hrows :
      fm2_smb_rows left right down b a false padding (Some minFrame) (Some maxFrame)
      = fm2_smb_rows left' right' down' b' a' false padding (Some minFrame) (Some maxFrame)).
    { unfold fm2_smb in Heq. apply join_nl_inj in Heq.
      - destruct header; [|done].
        rewrite !fm2_smb_rows_header in Heq. by apply app_inv_head in Heq.
      - apply fm2_smb_rows_no_newline.
      - apply fm2_smb_rows_no_newline.
      - destruct header; [|by rewrite !Hlen].
        by rewrite !fm2_smb_rows_header, !length_app, !Hlen. }
    intros i Hi f.
    pose proof (fm2_smb_frame_row left right down b a padding _ _ _ Hi) as H1.
    pose proof (fm2_smb_frame_row left' right' down' b' a' padding _ _ _ Hi) as H2.
    cbv zeta in H1, H2. fold f in H1, H2.
    rewrite Hrows, H2 in H1. injection H1 as H1.
    apply fm2_line_inj in H1 as (Hd & Hl & Hr & Ha & Hb).
    symmetry in Hd, Hl, Hr, Ha, Hb.
    apply mem_eq_iff in Hd, Hl, Hr, Ha, Hb. done.
  - intros Hsets. unfold fm2_smb. f_equal.
    assert (Hrows :
      fm2_smb_rows left right down b a false padding (Some minFrame) (Some maxFrame)
      = fm2_smb_rows left' right' down' b' a' false padding (Some minFrame) (Some maxFrame)).
    { apply list_eq. intros n.
      destruct (decide (n < Z.to_nat (maxFrame - minFrame))%nat) as [Hn|Hn].
      - assert (Hi : minFrame <= minFrame + Z.of_nat n < maxFrame) by lia.
        pose proof (fm2_smb_frame_row left right down b a padding _ _ _ Hi) as H1.
        pose proof (fm2_smb_frame_row left' right' down' b' a' padding _ _ _ Hi) as H2.
        cbv zeta in H1, H2.
        replace (Z.to_nat (minFrame + Z.of_nat n - minFrame)) with n in H1, H2 by lia.
        rewrite H1, H2.
        destruct (Hsets _ Hi) as (Hl & Hr & Hd & Hb & Ha). cbv zeta in Hl, Hr, Hd, Hb, Ha.
        apply mem_eq_iff in Hl, Hr, Hd, Hb, Ha.
        by rewrite Hl, Hr, Hd, Hb, Ha.
      - rewrite !lookup_ge_None_2; [done | rewrite Hlen; lia | rewrite Hlen; lia]. }
    destruct header; [|done].
    by rewrite !fm2_smb_rows_header, Hrows.
Qed.

(** ** The length of the movie *)

(** X11: the movie [compile] plays (header and padding on, no frame bounds)
    has the 9 header lines and then [n] frame rows, where [n] is 34 when no
    press lies beyond the start press and otherwise one more than the last
    press moved forward by 196: no press of the five sets is cut off, and no
    row follows the last press. *)
Theorem fm2_smb_live_length (left right down b a : gset Z) :
  let U := left ∪ right ∪ down ∪ b ∪ a in
  let n := Z.of_nat (length (fm2_smb_rows left right down b a false true None None)) in
  Z.of_nat (length (split_lines (fm2_smb left right down b a true true None None)))
  = 9 + n /\
  34 <= n /\
  (forall x, x ∈ U -> x + 196 < n) /\
  (n = 34 \/ n - 197 ∈ U).
Proof.
  intros U n. split; [|apply fm2_smb_padded_length].
  rewrite fm2_smb_split_lines by done.
  rewrite fm2_smb_rows_header, length_app. subst n. simpl length. lia.
Qed.

(** ** Cutting the movie at a frame count *)







(** ** The movie of a duration-run configuration *)




(** ** Inputs the movie never uses *)

Lemma fm2_line_untouched (down left right a b start reset : bool) :
  let line := fm2_line false down left right a b start false reset in
  String.get 6 line = Some "."%char /\ String.get 8 line = Some "."%char /\
  String.substring 11 11 line = "|........||".
Proof. destruct down, left, right, a, b, start, reset; repeat split; reflexivity. Qed.

(** X14: no frame row [fm2_smb] emits, whatever the sets, the padding and
    the frame bounds, presses Up or Select or touches the second controller;
    and with padding off no row resets the console or presses Start. *)
Theorem fm2_smb_untouched_inputs (left right down b a : gset Z) (padding : bool)
    (minFrame maxFrame : option Z) (i : nat) (line : string) :
  fm2_smb_rows left right down b a false padding minFrame maxFrame !! i = Some line ->
  String.get 6 line = Some "."%char /\ String.get 8 line = Some "."%char /\
  String.substring 11 11 line = "|........||" /\
  (padding = false ->
   String.get 1 line = Some "0"%char /\ String.get 7 line = Some "."%char).
Proof.
  intros H. unfold fm2_smb_rows in H. apply fm2_lines_lookup_inv in H.
  cbv zeta in H. rewrite !mem_empty in H. subst line.
  match goal with
  | |- context [fm2_line false ?d ?l ?r ?a' ?b' ?s false ?t] =>
      destruct (fm2_line_untouched d l r a' b' s t) as (HU & HS & HP);
      pose proof (fm2_line_reset false d l r a' b' s false t) as HR;
      destruct (fm2_line_buttons false d l r a' b' s false t)
        as (_ & _ & _ & _ & HT & _)
  end.
  split; [exact HU|]. split; [exact HS|]. split; [exact HP|].
  intros ->. rewrite HR, HT. by rewrite !mem_empty.
Qed.

Lemma fm2_smb_untouched_inputs_example :
  let line := "|0|.L......|........||" in
  String.get 6 line = Some "."%char /\ String.get 8 line = Some "."%char /\
  String.substring 11 11 line = "|........||" /\
  (false = false ->
   String.get 1 line = Some "0"%char /\ String.get 7 line = Some "."%char).
Proof.
  apply (fm2_smb_untouched_inputs {[1]} ∅ ∅ ∅ ∅ false None None 1).
  by vm_compute.
Defined.
